(** * MockSystem: a fixed-step Morris-Lecar network simulator

    Shallow embedding of [neurokernel/MockSystem/MockSystem.py] (Python 2,
    numpy, pycuda).  Device arrays are lists of IEEE binary64 numbers, the
    Python objects are records, the methods are functions that return the
    updated objects, construction errors are [None].  Where the code
    computes a device address in bytes, the memory is followed byte by
    byte.

    The three CUDA kernels ([cuda_code/*.cu]), the base class
    [neurokernel.Module] and [neurokernel.tools.parray] are not part of the
    sources at hand: the kernels are parameters of the development, the two
    others are modelled from the specification where they are needed. *)

From Stdlib Require Import Floats.PrimFloat.
From Stdlib Require Floats.FloatOps Floats.SpecFloat Floats.FloatAxioms.
From Stdlib Require Import ZArith Lia.
From stdpp Require Import base option list sorting.

Set Warnings "-inexact-float".
Open Scope Z_scope.

(** ** Numbers: Python 2 and numpy scalars *)

Module Py.
Import FloatOps SpecFloat.

Definition double := PrimFloat.float.

(** [float(z)]: the nearest binary64 number. *)
Definition of_int (z : Z) : double :=
  SF2Prim (binary_normalize prec emax z 0 false).

(** The integer part of [m * 2^e] (m > 0), truncated. *)
Definition mag_trunc (m : positive) (e : Z) : Z :=
  if 0 <=? e then Z.pos m * 2 ^ e else Z.pos m / 2 ^ (- e).

(** [m * 2^e] rounded to an integer, ties away from zero (C [round]). *)
Definition mag_round_away (m : positive) (e : Z) : Z :=
  if 0 <=? e then Z.pos m * 2 ^ e
  else
    let q := Z.pos m / 2 ^ (- e) in
    let r := Z.pos m mod 2 ^ (- e) in
    if 2 ^ (- e) <=? 2 * r then q + 1 else q.

(** [m * 2^e] rounded to an integer, ties to even (C [rint]). *)
Definition mag_round_even (m : positive) (e : Z) : Z :=
  if 0 <=? e then Z.pos m * 2 ^ e
  else
    let q := Z.pos m / 2 ^ (- e) in
    let r := Z.pos m mod 2 ^ (- e) in
    match 2 * r ?= 2 ^ (- e) with
    | Lt => q
    | Gt => q + 1
    | Eq => if Z.even q then q else q + 1
    end.

Definition signed (s : bool) (z : Z) : Z := if s then - z else z.

(** [int(x)] on a float: truncation; [OverflowError] on an infinity and
    [ValueError] on a NaN. *)
Definition int (x : double) : option Z :=
  match Prim2SF x with
  | S754_zero _ => Some 0
  | S754_finite s m e => Some (signed s (mag_trunc m e))
  | S754_infinity _ | S754_nan => None
  end.

(** [int(round(x))] with the Python 2 builtin [round]: ties go away from
    zero; the float it returns is integral, so [int] is exact on it. *)
Definition int_round (x : double) : option Z :=
  match Prim2SF x with
  | S754_zero _ => Some 0
  | S754_finite s m e => Some (signed s (mag_round_away m e))
  | S754_infinity _ | S754_nan => None
  end.

(** A Python int stored in an [np.int32] cell. *)
Definition wrap32 (z : Z) : Z := (z + 2 ^ 31) mod 2 ^ 32 - 2 ^ 31.

(** [np.round(x).astype(np.int32)] on one cell: ties to even, then the C
    conversion; a value that does not fit (or is not finite) comes out as
    the least int32, as on x86. *)
Definition round_astype_int32 (x : double) : Z :=
  match Prim2SF x with
  | S754_zero _ => 0
  | S754_finite s m e =>
      let z := signed s (mag_round_even m e) in
      if (- 2 ^ 31 <=? z) && (z <? 2 ^ 31) then z else - 2 ^ 31
  | S754_infinity _ | S754_nan => - 2 ^ 31
  end.

(** Builtin [max] on a sequence of floats: [ValueError] when empty; the
    first of the largest is kept ([>] decides). *)
Definition max (l : list double) : option double :=
  match l with
  | [] => None
  | x :: l' => Some (foldl (fun m y => if ltb m y then y else m) x l')
  end.

(** Integer [/] of Python 2: floor division, [ZeroDivisionError] on 0. *)
Definition floordiv (a b : Z) : option Z :=
  if b =? 0 then None else Some (a / b).

(** [a[k]] on a sequence: negative [k] counts from the end,
    [IndexError] outside. *)
Definition index {A} (a : list A) (k : Z) : option A :=
  let n := Z.of_nat (length a) in
  if (0 <=? k) && (k <? n) then a !! Z.to_nat k
  else if (- n <=? k) && (k <? 0) then a !! Z.to_nat (n + k)
  else None.

Definition zero : double := 0%float.
Definition one : double := 1%float.
End Py.

Abbreviation double := Py.double.
Bind Scope float_scope with Py.double.

(** ** float64 in memory *)

(** The eight bytes of an [np.double]: IEEE binary64, least significant
    byte first.  (The floats of this development have one NaN; its bytes
    are those of the quiet NaN without payload.) *)
Module Binary64.
Import FloatOps SpecFloat.

Definition sign_bit (s : bool) : Z := if s then 2 ^ 63 else 0.

(** Sign, biased exponent and fraction, as one 64-bit number. *)
Definition bits (x : double) : Z :=
  match Prim2SF x with
  | S754_zero s => sign_bit s
  | S754_infinity s => sign_bit s + 2047 * 2 ^ 52
  | S754_nan => 2047 * 2 ^ 52 + 2 ^ 51
  | S754_finite s m e =>
      if 2 ^ 52 <=? Z.pos m
      then sign_bit s + (e + 1075) * 2 ^ 52 + (Z.pos m - 2 ^ 52)
      else sign_bit s + Z.pos m
  end.

Definition of_bits (z : Z) : double :=
  let s := 2 ^ 63 <=? z in
  let E := z / 2 ^ 52 mod 2048 in
  let f := z mod 2 ^ 52 in
  SF2Prim
    (if E =? 0 then
       if f =? 0 then S754_zero s else S754_finite s (Z.to_pos f) (- 1074)
     else if E =? 2047 then
       if f =? 0 then S754_infinity s else S754_nan
     else S754_finite s (Z.to_pos (f + 2 ^ 52)) (E - 1075)).

(** [np.double().itemsize] *)
Definition itemsize : Z := 8.

(** Byte [k] of [x], for [0 <= k < 8]. *)
Definition byte (x : double) (k : Z) : Z := bits x / 2 ^ (8 * k) mod 256.

(** The float whose bytes are [b 0 .. b 7]. *)
Definition of_bytes (b : Z -> Z) : double :=
  of_bits (foldr (fun k acc => b k * 2 ^ (8 * k) + acc) 0 (seqZ 0 itemsize)).

End Binary64.

(** ** CUDA memory *)

(** [cuda.memcpy_dtod(dst, src, count)] and [memcpy_dtoh] between arrays,
    in cells: [count] cells are read from the address of [src] on and
    written from the address of [dst] on.  [behind] is what the device
    memory holds behind the end of [src]: a count beyond that end reads on
    there.  The result is the memory from the address of [dst] on: the
    cells of [dst], the first [count] of them overwritten, and, when
    [count] goes beyond the end of [dst], the cells written behind it. *)
Definition memcpy (behind : nat -> double) (dst src : list double)
    (count : nat) : list double :=
  take count (src ++ (behind <$> seq 0 (count - length src)))
  ++ drop count dst.

(** Device memory from an address on, byte by byte: the byte at every
    offset from that address, in front of it ([< 0]) and behind whatever
    was allocated there included. *)
Definition bytes := Z -> Z.

(** [cuda.memcpy_dtod(dst, src.gpudata, src.nbytes)] with [dst] a byte
    offset into [mem]: the [8 * len(src)] bytes of the array [src] are
    written from offset [dst] on. *)
Definition memcpy_bytes (mem : bytes) (dst : Z) (src : list double) : bytes :=
  fun a =>
    match src !! Z.to_nat ((a - dst) / Binary64.itemsize) with
    | Some x =>
        if dst <=? a then Binary64.byte x ((a - dst) mod Binary64.itemsize)
        else mem a
    | None => mem a
    end.

(** The float64 cell [index] cells behind the address of [mem]. *)
Definition cell (mem : bytes) (index : Z) : double :=
  Binary64.of_bytes (fun k => mem (Binary64.itemsize * index + k)).

(** ** parray: pitched device arrays *)

(** [neurokernel.tools.parray] is not among the sources.  What the sources
    use of a parray is its address [gpudata] and its leading dimension
    [ld], the distance between two rows counted in cells: [eval] and [main]
    multiply [ld] by the item size to get the byte address of a row, and
    [compute_synapse] hands [ld] to the kernel as the row stride. *)
Record parray := {
  gpudata : bytes;
  ld : Z
}.

(** Modelled from the spec: [parray.empty((rows, cols), np.double)].  The
    depth of the delay buffer has to be positive (section 4.1); the memory
    holds whatever the device memory held, here the float [uninit] in
    every cell; the leading dimension is the allocator's choice. *)
Definition parray_empty (rows cols ld : Z) (uninit : double) : option parray :=
  if 0 <? rows then
    Some {| gpudata := fun a => Binary64.byte uninit (a mod Binary64.itemsize);
            ld := ld |}
  else None.

(** The cells of a parray of [rows] x [cols] as [eval] and the kernels
    address them: cell [c] of row [r] is [r * ld + c] cells behind
    [gpudata]. *)
Definition grid (a : parray) (rows cols : Z) : list (list double) :=
  (fun r => (fun c => cell (gpudata a) (r * ld a + c)) <$> seqZ 0 cols)
    <$> seqZ 0 rows.

(** ** CircularArray: the delay buffer *)

Module CircularArray.

(** [buffer] is kept as the grid of its cells. *)
Record t := {
  num_neurons : Z;
  delay_steps : Z;
  buffer : list (list double);
  current : Z
}.

(** The loop of [__init__]: for every [i] of [range(delay_steps)] the
    [rest] vector is copied to the address
    [int(self.buffer.gpudata) + self.buffer.ld * i], which is [ld * i]
    bytes behind [gpudata]. *)
Definition fill_rows (rest : list double) (buf : parray) (rows : list Z)
    : parray :=
  foldl (fun b i => {| gpudata := memcpy_bytes (gpudata b) (ld b * i) rest;
                       ld := ld b |})
        buf rows.

(** [d_rest = garray.to_gpu(rest)] is the device copy of [rest]; [ld] and
    [uninit] are what the allocator and the device memory give. *)
Definition init (num_neurons delay_steps : Z) (rest : list double)
    (ld : Z) (uninit : double) : option t :=
  buf ← parray_empty delay_steps num_neurons ld uninit;
  Some {| num_neurons := num_neurons;
          delay_steps := delay_steps;
          buffer := grid (fill_rows rest buf (seqZ 0 delay_steps))
                         delay_steps num_neurons;
          current := 0 |}.

Definition step (self : t) : t :=
  let c := current self + 1 in
  {| num_neurons := num_neurons self;
     delay_steps := delay_steps self;
     buffer := buffer self;
     current := if delay_steps self <=? c then 0 else c |}.

(** Modelled from the spec: the delayed read of the synapse kernel
    ([terminal_synapse.cu], not among the sources): a synapse with delay
    [d] addresses slot [(current - d) mod D] and takes the cell of its
    presynaptic neuron [i] there. *)
Definition read (self : t) (i d : Z) : option double :=
  row ← buffer self !! Z.to_nat ((current self - d) mod delay_steps self);
  row !! Z.to_nat i.

End CircularArray.

(** ** The random number generators *)

(** [numpy.random]: the global generator, a state machine that
    [np.random.seed] resets and every draw advances.  [np_draw low high]
    yields one integer of the closed range [[low, high]], as
    [random_integers] does for each cell. *)
Class NumpyRandom := {
  np_state : Type;
  np_seed : Z -> np_state;
  np_draw : Z -> Z -> np_state -> Z * np_state
}.

(** What numpy documents of [random_integers]: both ends are inclusive. *)
Definition np_draw_in_range (R : NumpyRandom) : Prop :=
  forall low high st, low <= high -> low <= (np_draw low high st).1 <= high.

Fixpoint np_draws `{NumpyRandom} (low high : Z) (size : nat) (st : np_state)
    : list Z * np_state :=
  match size with
  | O => ([], st)
  | S k =>
      let '(x, st1) := np_draw low high st in
      let '(l, st2) := np_draws low high k st1 in
      (x :: l, st2)
  end.

(** [np_rd.random_integers(low, high, size = (size,))]: [ValueError] when
    the range is empty or the size negative. *)
Definition random_integers `{NumpyRandom} (low high size : Z) (st : np_state)
    : option (list Z * np_state) :=
  if (high <? low) || (size <? 0) then None
  else Some (np_draws low high (Z.to_nat size) st).

(** Python's [random] module: its hidden state determines the sequence of
    standard normal deviates that [gauss] will use; the state is that
    sequence, and [gauss(mu, sigma)] returns [mu + z * sigma] on the next
    deviate [z]. *)
Definition rd_state := nat -> double.

Definition rd_gauss (mu sigma : double) (st : rd_state) : double * rd_state :=
  ((mu + st O * sigma)%float, fun k => st (S k)).

(** [[rd.gauss(mu, sigma) for x in np.zeros([size])]] *)
Fixpoint gauss_list (mu sigma : double) (size : nat) (st : rd_state)
    : list double * rd_state :=
  match size with
  | O => ([], st)
  | S k =>
      let '(x, st1) := rd_gauss mu sigma st in
      let '(l, st2) := gauss_list mu sigma k st1 in
      (x :: l, st2)
  end.

(** What a process holds besides the objects of this file: the states of the
    two generators, the contents of fresh device memory, and the leading
    dimension its allocator gives a parray of [rows] x [cols] cells. *)
Record World `{NumpyRandom} := {
  np_rng : np_state;
  py_rng : rd_state;
  dev_uninit : double;
  dev_ld : Z -> Z -> Z
}.

(** ** numpy array functions *)

(** [bincount(x)]: cell [k] counts the occurrences of [k], for [k] up to the
    largest element; [ValueError] on a negative element. *)
Definition bincount (x : list Z) : option (list Z) :=
  if forallb (fun v => 0 <=? v) x then
    match x with
    | [] => Some []
    | _ => Some ((fun k => Z.of_nat (count_occ Z.eq_dec x k))
                   <$> seqZ 0 (foldr Z.max 0 x + 1))
    end
  else None.

Definition Zsum (x : list Z) : Z := foldr Z.add 0 x.

(** [np.cumsum(x, dtype = np.int32)], from the running sum [acc]. *)
Fixpoint cumsum32 (acc : Z) (x : list Z) : list Z :=
  match x with
  | [] => []
  | c :: x' => let acc' := Py.wrap32 (acc + c) in acc' :: cumsum32 acc' x'
  end.

(** ** The CUDA kernels *)

(** The constants [get_euler_kernel] copies into the kernel's module. *)
Record EulerConsts := {
  ec_ntype : Z;
  ec_V_1 : list double;
  ec_V_2 : list double;
  ec_V_3 : list double;
  ec_V_4 : list double;
  ec_Tphi : list double;
  ec_neuron_start : list Z;
  ec_offset : list double
}.

(** Places of the device memory outside the arrays of this file: behind
    the end of the memory the caller hands to [run_step], behind the end of
    [V], and where the buffer's row [slot] would be for a [slot] that is
    none of its rows. *)
Inductive Place :=
| BehindInput
| BehindV
| AtRow (slot : Z).

(** What the sources do not determine of the device is a parameter.  The
    three kernels ([cuda_code/euler_kernel.cu], [input_func.cu] and
    [terminal_synapse.cu], not among the sources) are given by what they
    are handed and what they leave in the arrays they write (section 4 of
    the specification):
    - [get_input num_neurons conductance cum_num_dendrite num_dendrite I_pre
      V V_rev] leaves the new [I_pre];
    - [hhn_euler_multiple consts V n row num_neurons I_pre h steps], handed
      the buffer row at the cursor, leaves the new [V], [n] and row;
    - [update_terminal_synapse n_synapse buffer current delay_steps pre
      conductance threshold slope power saturation delay mem_tmp] leaves the
      new [conductance] and [mem_tmp].
    What the device memory holds outside the arrays of this file is given
    cell by cell: [outside place k] is the [k]-th cell at that place. *)
Record Kernels := {
  outside : Place -> nat -> double;
  get_input :
    Z -> list double -> list Z -> list Z -> list double -> list double ->
    list double -> list double;
  hhn_euler_multiple :
    EulerConsts -> list double -> list double -> list double -> Z ->
    list double -> double -> Z -> list double * list double * list double;
  update_terminal_synapse :
    Z -> list (list double) -> Z -> Z -> list Z -> list double ->
    list double -> list double -> list double -> list double -> list Z ->
    list double -> list double * list double
}.

(** Modelled from the spec: what [hhn_euler_multiple] (in
    [euler_kernel.cu], not among the sources) writes to the row it is
    handed.  The integration phase records the new voltages (section 4.5,
    steps 3 and 4): the row the kernel leaves is the [V] it leaves. *)
Definition euler_records_voltage (K : Kernels) : Prop :=
  forall c V n row N I h S, (hhn_euler_multiple K c V n row N I h S).2
                            = (hhn_euler_multiple K c V n row N I h S).1.1.

(** The device operations of a tick, each with the data it leaves or is
    handed.  All of them go to the default stream ([st = None]), which
    executes them in the order they are issued: the log of a tick is the
    list of its operations in that order. *)
Inductive Cmd :=
| Fill (I_pre : list double)
| CopyInput (count : Z) (I_pre : list double)
| GetInput (I_pre : list double)
| Euler (slot : Z) (V row : list double)
| TerminalSynapse (current : Z) (rows : list (list double))
| CopyOut (V : list double)
| Step (current current' : Z).

(** ** MorrisLecar: the neurons *)

Module MorrisLecar.

Record t := {
  num_cart : Z;
  num_types : Z;
  num_neurons : Z;
  dt : double;
  steps : Z;
  ddt : double;
  V : list double;
  n : list double;
  I_pre : list double;
  cum_num_dendrite : list Z;
  num_dendrite : list Z;
  num_input : Z;
  update : EulerConsts
}.

Definition with_state (self : t) (V' n' I_pre' : list double) : t :=
  {| num_cart := num_cart self; num_types := num_types self;
     num_neurons := num_neurons self; dt := dt self; steps := steps self;
     ddt := ddt self; V := V'; n := n'; I_pre := I_pre';
     cum_num_dendrite := cum_num_dendrite self;
     num_dendrite := num_dendrite self; num_input := num_input self;
     update := update self |}.

Definition get_euler_kernel (num_types : Z) (neuron_start : list Z)
    (V1 V2 V3 V4 Tphi offset : list double) : EulerConsts :=
  {| ec_ntype := num_types; ec_V_1 := V1; ec_V_2 := V2; ec_V_3 := V3;
     ec_V_4 := V4; ec_Tphi := Tphi; ec_neuron_start := neuron_start;
     ec_offset := offset |}.

Definition init (num_neurons num_types num_cart : Z) (neuron_start : list Z)
    (dt : double) (num_dendrite : list Z)
    (V n V1 V2 V3 V4 Tphi offset : list double) (non_input_start : Z)
    : option t :=
  s ← Py.int_round (dt / 1e-5)%float;
  let steps := Z.max s 1 in
  let ddt := (dt / Py.of_int steps)%float in
  num_input ← Py.index neuron_start non_input_start;
  Some {| num_cart := num_cart; num_types := num_types;
          num_neurons := num_neurons; dt := dt; steps := steps; ddt := ddt;
          V := V; n := n;
          I_pre := replicate (Z.to_nat num_neurons) Py.zero;
          cum_num_dendrite := 0 :: cumsum32 0 num_dendrite;
          num_dendrite := num_dendrite;
          num_input := num_input;
          update := get_euler_kernel num_types neuron_start
                                     V1 V2 V3 V4 Tphi offset |}.

(** [self.neurons.I_pre.fill(0)] *)
Definition fill_I_pre (self : t) : t * Cmd :=
  let I := replicate (length (I_pre self)) Py.zero in
  (with_state self (V self) (n self) I, Fill I).

Definition update_I_pre_input (K : Kernels) (self : t) (I_ext : list double)
    : t * Cmd :=
  let I := memcpy (outside K BehindInput) (I_pre self) I_ext
                  (Z.to_nat (num_input self)) in
  (with_state self (V self) (n self) I, CopyInput (num_input self) I).

Definition read_synapse (K : Kernels) (self : t)
    (conductance V_rev : list double) : t * Cmd :=
  let I := get_input K (num_neurons self) conductance
             (cum_num_dendrite self) (num_dendrite self) (I_pre self)
             (V self) V_rev in
  (with_state self (V self) (n self) I, GetInput (I_pre self)).

(** The kernel is handed the address [current * ld * itemsize] bytes
    behind the buffer's, whatever the cursor is.  At a cursor that is a row
    of the buffer this is the address of that row, which is the one the
    kernel leaves changed.  At any other cursor it is an address outside
    the buffer: the kernel is launched all the same, on the cells the
    device memory holds there ([outside]); the row it writes, which the log
    records, lands there and in no row of the buffer.  What else of the
    device memory that write hits is not followed here: the statements
    that need more take a cursor that is a row as a hypothesis, which holds
    of every constructed system at every tick. *)
Definition eval (K : Kernels) (self : t) (buffer : CircularArray.t)
    : t * CircularArray.t * Cmd :=
  let cur := CircularArray.current buffer in
  let rows := CircularArray.buffer buffer in
  let at_cursor := if 0 <=? cur then rows !! Z.to_nat cur else None in
  let row :=
    match at_cursor with
    | Some row => row
    | None => outside K (AtRow cur) <$> seq 0 (Z.to_nat (num_neurons self))
    end in
  let '(V', n', row') :=
    hhn_euler_multiple K (update self) (V self) (n self) row
      (num_neurons self) (I_pre self) (ddt self * 1000)%float (steps self) in
  (with_state self V' n' (I_pre self),
   {| CircularArray.num_neurons := CircularArray.num_neurons buffer;
      CircularArray.delay_steps := CircularArray.delay_steps buffer;
      CircularArray.buffer :=
        match at_cursor with
        | Some _ => <[Z.to_nat cur := row']> rows
        | None => rows
        end;
      CircularArray.current := cur |},
   Euler cur V' row').

End MorrisLecar.

(** ** VectorSynapse: the synapses *)

Module VectorSynapse.

Record t := {
  dt : double;
  num_synapse : Z;
  pre_neuron : list Z;
  threshold : list double;
  slope : list double;
  power : list double;
  saturation : list double;
  delay : list Z;
  conductance : list double;
  V_rev : list double;
  mem_tmp : list double
}.

(** One synapse's delay in ticks, from its delay in milliseconds and the
    tick size in seconds. *)
Definition tick_delay (syn_delay dt : double) : Z :=
  Py.round_astype_int32 (syn_delay * 1e-3 / dt)%float.

Definition init (num_synapse : Z) (pre_neuron : list Z)
    (syn_thres syn_slope syn_power syn_saturation syn_delay V_rev : list double)
    (dt : double) (uninit : double) : t :=
  {| dt := dt; num_synapse := num_synapse; pre_neuron := pre_neuron;
     threshold := syn_thres; slope := syn_slope; power := syn_power;
     saturation := syn_saturation;
     delay := (fun d => tick_delay d dt) <$> syn_delay;
     conductance := replicate (Z.to_nat num_synapse) Py.zero;
     V_rev := V_rev;
     mem_tmp := replicate (Z.to_nat num_synapse) uninit |}.

Definition compute_synapse (K : Kernels) (self : t)
    (buffer : CircularArray.t) : t * Cmd :=
  let '(g, mem) :=
    update_terminal_synapse K (num_synapse self)
      (CircularArray.buffer buffer) (CircularArray.current buffer)
      (CircularArray.delay_steps buffer) (pre_neuron self)
      (conductance self) (threshold self) (slope self) (power self)
      (saturation self) (delay self) (mem_tmp self) in
  ({| dt := dt self; num_synapse := num_synapse self;
      pre_neuron := pre_neuron self; threshold := threshold self;
      slope := slope self; power := power self;
      saturation := saturation self; delay := delay self;
      conductance := g; V_rev := V_rev self; mem_tmp := mem |},
   TerminalSynapse (CircularArray.current buffer)
                   (CircularArray.buffer buffer)).

End VectorSynapse.

(** ** Module: the base class *)

Module BaseModule.

Record t := {
  dt : double;
  num_in_non : Z;
  num_in_spike : Z;
  num_proj_non : Z;
  num_proj_spike : Z;
  device : Z
}.

(** Modelled from the spec: [Module.__init__] of [neurokernel.Module], which
    is not among the sources, keeps the tick size and the channel counts it
    is handed as the attributes [dt], [num_in_non], [num_in_spike],
    [num_proj_non], [num_proj_spike] (section 6); [init_gpu] reads [dt] and
    [num_in_non] back. *)
Definition init (dt : double)
    (num_in_non num_in_spike num_proj_non num_proj_spike device : Z) : t :=
  {| dt := dt; num_in_non := num_in_non; num_in_spike := num_in_spike;
     num_proj_non := num_proj_non; num_proj_spike := num_proj_spike;
     device := device |}.

End BaseModule.

(** ** MockSystem: the network and its tick *)

Module MockSystem.
Section WithRandom.
Context `{R : NumpyRandom}.

(** The object [__init__] leaves: the attributes of the base class and its
    own. *)
Record t := {
  dt : double;
  num_in_non : Z;
  num_in_spike : Z;
  num_proj_non : Z;
  num_proj_spike : Z;
  device : Z;
  num_neurons : Z;
  num_synapses : Z;
  start_idx : list Z;
  num_types : Z
}.

(** The attributes [init_gpu] adds. *)
Record gpu := {
  self : t;
  num_dendrites : list Z;
  delay_steps : Z;
  buffer : CircularArray.t;
  neurons : MorrisLecar.t;
  synapses : VectorSynapse.t
}.

(** [__init__] (the [manager] is only passed on to the base class): the
    numpy generator is seeded, the base class keeps its arguments, the
    sizes and the type boundaries are computed. *)
Definition init (num_neurons_per_type : Z) (avr_synapses_per_neuron : double)
    (dt : double) (num_in_non num_in_spike num_proj_non num_proj_spike : Z)
    (device : Z) (w : World) : option (t * World) :=
  let w' := {| np_rng := np_seed 0; py_rng := py_rng w;
               dev_uninit := dev_uninit w; dev_ld := dev_ld w |} in
  let base := BaseModule.init dt num_in_non num_in_spike num_proj_non
                              num_proj_spike device in
  let num_neurons := num_neurons_per_type * 15 in
  num_synapses ← Py.int (avr_synapses_per_neuron * Py.of_int num_neurons)%float;
  let start_idx := (fun i => Py.wrap32 (num_neurons / 15 * i)) <$> seqZ 0 15 in
  Some ({| dt := BaseModule.dt base;
           num_in_non := BaseModule.num_in_non base;
           num_in_spike := BaseModule.num_in_spike base;
           num_proj_non := BaseModule.num_proj_non base;
           num_proj_spike := BaseModule.num_proj_spike base;
           device := BaseModule.device base;
           num_neurons := num_neurons;
           num_synapses := num_synapses; start_idx := start_idx;
           num_types := Z.of_nat (length start_idx) |}, w').

Definition offset : list double :=
  [0; 0; 0; 0; 0; 0; 0.2; 0.2; 0.2; 0.2; 0.2; 0.2; 0.2; 0.2; 0]%float.

Definition init_gpu (self : t) (w : World) : option (gpu * World) :=
  '(pre_raw, rng1) ← random_integers 0 (num_neurons self)
                        (num_synapses self) (np_rng w);
  let pre_neuron := Py.wrap32 <$> pre_raw in
  '(post_raw, rng2) ← random_integers 0 (num_neurons self)
                         (num_synapses self) rng1;
  let post_neuron := merge_sort Z.le (Py.wrap32 <$> post_raw) in
  num_dendrites ← bincount post_neuron;
  let nsyn := Z.to_nat (num_synapses self) in
  let ntyp := Z.to_nat (num_types self) in
  let nneu := Z.to_nat (num_neurons self) in
  let '(thres, g1) := gauss_list (-0.5) 0.01 nsyn (py_rng w) in
  let '(slope, g2) := gauss_list (-0.5) 0.1 nsyn g1 in
  let '(saturation, g3) := gauss_list 0.1 0.01 nsyn g2 in
  let power := replicate nsyn Py.one in
  let '(reverse, g4) := gauss_list (-0.4) 0.1 nsyn g3 in
  let '(V_1, g5) := gauss_list 0.13 0.03 ntyp g4 in
  let '(V_2, g6) := gauss_list 0.15 0.001 ntyp g5 in
  let '(V_3, g7) := gauss_list (-0.25) 0.1 ntyp g6 in
  let '(V_4, g8) := gauss_list 0.15 0.05 ntyp g7 in
  let '(Tphi, g9) := gauss_list 0.2 0.01 ntyp g8 in
  let delay := replicate nsyn Py.one in
  let '(V, g10) := gauss_list (-0.51) 0.01 nneu g9 in
  let '(n, g11) := gauss_list 0.3 0.05 nneu g10 in
  max_delay ← Py.max delay;
  delay_steps ← Py.int_round (max_delay * 1e-3 / dt self)%float;
  buffer ← CircularArray.init (num_neurons self) delay_steps V
              (dev_ld w delay_steps (num_neurons self)) (dev_uninit w);
  num_cart ← Py.floordiv (num_neurons self) 15;
  non_input_start ← Py.floordiv (num_in_non self) (num_neurons self);
  neurons ← MorrisLecar.init (num_neurons self) (num_types self) num_cart
               (start_idx self) (dt self) num_dendrites V n
               V_1 V_2 V_3 V_4 Tphi offset non_input_start;
  let synapses := VectorSynapse.init (num_synapses self) pre_neuron
                    thres slope power saturation delay reverse (dt self)
                    (dev_uninit w) in
  Some ({| self := self; num_dendrites := num_dendrites;
           delay_steps := delay_steps; buffer := buffer;
           neurons := neurons; synapses := synapses |},
        {| np_rng := rng2; py_rng := g11; dev_uninit := dev_uninit w;
           dev_ld := dev_ld w |}).

(** One tick.  [in_non_list] is the device array at the address the
    caller hands over, [proj_non] the host array that receives the
    voltages ([memcpy_dtoh] copies as many bytes as that array has);
    [in_spike_list] and [proj_spike] are not used.  The result is the
    system after the tick, the filled [proj_non] and the log of the device
    operations. *)
Definition run_step (K : Kernels) (s : gpu) (in_non_list proj_non : list double)
    : gpu * list double * list Cmd :=
  let '(nr1, c1) := MorrisLecar.fill_I_pre (neurons s) in
  let '(nr2, c2) := MorrisLecar.update_I_pre_input K nr1 in_non_list in
  let '(nr3, c3) := MorrisLecar.read_synapse K nr2
                      (VectorSynapse.conductance (synapses s))
                      (VectorSynapse.V_rev (synapses s)) in
  let '(nr4, buf4, c4) := MorrisLecar.eval K nr3 (buffer s) in
  let '(syn5, c5) := VectorSynapse.compute_synapse K (synapses s) buf4 in
  let out := memcpy (outside K BehindV) proj_non (MorrisLecar.V nr4)
                    (length proj_non) in
  let buf7 := CircularArray.step buf4 in
  ({| self := self s; num_dendrites := num_dendrites s;
      delay_steps := delay_steps s; buffer := buf7; neurons := nr4;
      synapses := syn5 |},
   out,
   [c1; c2; c3; c4; c5; CopyOut out;
    Step (CircularArray.current buf4) (CircularArray.current buf7)]).

(** The loop of [main]: tick [i] reads row [i] of [I_ext] and fills row
    [i] of [out]. *)
Fixpoint run (K : Kernels) (s : gpu) (I_ext out : list (list double))
    : gpu * list (list double) :=
  match I_ext, out with
  | in_non :: I_ext', proj_non :: out' =>
      let '(s1, v, _) := run_step K s in_non proj_non in
      let '(s2, vs) := run K s1 I_ext' out' in
      (s2, v :: vs)
  | _, _ => (s, [])
  end.

End WithRandom.
End MockSystem.

(** ** Stand-ins for the parts outside the sources

    Closed instances of the generator and of the kernels, for evaluating
    the definitions above on concrete inputs. *)

Module Demo.

(** A generator that meets numpy's contract: it walks down the closed
    range from its upper end, one step per draw. *)
#[export] Instance countdown : NumpyRandom := {|
  np_state := Z;
  np_seed := fun seed => seed;
  np_draw := fun low high st => (high - st mod (high - low + 1), st + 1)
|}.

(** Kernels that leave the currents and conductances as they find them
    and move each voltage by [h * I]; the row receives the new voltages.
    The device memory outside the arrays holds NaN. *)
Definition kernels : Kernels := {|
  outside := fun _ _ => PrimFloat.nan;
  get_input := fun _ _ _ _ I_pre _ _ => I_pre;
  hhn_euler_multiple := fun _ V n _ _ I_pre h _ =>
    let V' := zip_with (fun v i => v + h * i)%float V I_pre in (V', n, V');
  update_terminal_synapse := fun _ _ _ _ _ g _ _ _ _ _ mem => (g, mem)
|}.

(** A process whose [random] module yields the deviate [z] forever, whose
    fresh device memory holds NaN and whose allocator aligns the rows of a
    parray to 512 bytes, 64 cells. *)
Definition world (z : double) : World :=
  {| np_rng := 0; py_rng := fun _ => z; dev_uninit := PrimFloat.nan;
     dev_ld := fun _ cols => (cols + 63) / 64 * 64 |}.

(** [MockSystem(manager, 1, 1.0, 1e-4, 0, 0, 15, 0, 0)]: one neuron per
    type, one synapse per neuron, a tick of 0.1 ms, no input channel. *)
Definition made (z : double) : option (MockSystem.t * World) :=
  MockSystem.init 1 1 1e-4 0 0 15 0 0 (world z).

(** ... followed by [init_gpu()]. *)
Definition small (z : double) : option (MockSystem.gpu * World) :=
  '(s, w) ← made z; MockSystem.init_gpu s w.

(** The same network with 30 input channels: two types are driven. *)
Definition driven (z : double) : option (MockSystem.gpu * World) :=
  '(s, w) ← MockSystem.init 1 1 1e-4 30 0 15 0 0 (world z);
  MockSystem.init_gpu s w.

(** The voltages of a vector as sign, mantissa and exponent, to tell two
    vectors apart. *)
Definition volts (l : list double) : list SpecFloat.spec_float :=
  FloatOps.Prim2SF <$> l.

End Demo.

(** ** The specification's own words, for comparison *)

Module Spec.

(** Section 6: "delay is converted to integer ticks via
    [round(delay / dt)]". *)
Definition tick_delay (delay dt : double) : Z :=
  Py.round_astype_int32 (delay / dt)%float.

(** What rounding means, whatever is done with ties: [z] is an integer
    nearest to the number [x], [|z - x| <= 1/2].  A finite float is
    [+-m * 2^e]; for [e < 0] the inequality is stated after multiplication
    by [2 * 2^(-e)]. *)
Definition nearest (x : double) (z : Z) : Prop :=
  match FloatOps.Prim2SF x with
  | SpecFloat.S754_zero _ => z = 0
  | SpecFloat.S754_finite s m e =>
      if 0 <=? e then z = Py.signed s (Z.pos m * 2 ^ e)
      else 2 * Z.abs (z * 2 ^ (- e) - Py.signed s (Z.pos m)) <= 2 ^ (- e)
  | _ => False
  end.

(** Section 4.3: "S = max(1, round(dt / tau_micro))" with the micro-step
    target [1e-5], and "micro-steps of size dt / S". *)
Definition micro_steps (dt : double) : option Z :=
  s ← Py.int_round (dt / 1e-5)%float; Some (Z.max 1 s).

Definition micro_size (dt : double) (S : Z) : double :=
  (dt / Py.of_int S)%float.

End Spec.

(** ** Invariant of the cursor *)

(** The cursor addresses a row of the buffer, whose depth is its number of
    rows. *)
Definition cursor_inside (b : CircularArray.t) : Prop :=
  CircularArray.delay_steps b = Z.of_nat (length (CircularArray.buffer b))
  /\ 0 <= CircularArray.current b < CircularArray.delay_steps b.

(** ** Tactics *)

(** Case analysis on the integer comparisons of the goal. *)
Ltac zcases :=
  repeat match goal with
         | |- context [?a <=? ?b] => destruct (Z.leb_spec a b)
         | |- context [?a <? ?b] => destruct (Z.ltb_spec a b)
         end;
  simpl; try reflexivity; try lia.

(** Unfold a tick down to the kernel calls and name their results, once
    for a cursor that is a row of the buffer and once for one that is
    not. *)
Ltac open_tick :=
  unfold MockSystem.run_step, VectorSynapse.compute_synapse, MorrisLecar.eval,
    MorrisLecar.read_synapse, MorrisLecar.update_I_pre_input,
    MorrisLecar.fill_I_pre, MorrisLecar.with_state;
  cbn [MorrisLecar.V MorrisLecar.n MorrisLecar.I_pre MorrisLecar.update
       MorrisLecar.num_neurons MorrisLecar.ddt MorrisLecar.steps
       MorrisLecar.num_input MorrisLecar.cum_num_dendrite
       MorrisLecar.num_dendrite MorrisLecar.dt];
  repeat match goal with
         | |- context [if 0 <=? ?c then ?l !! ?k else None] =>
             let E := fresh "Ecur" in
             destruct (if 0 <=? c then l !! k else None) as [?row|] eqn:E
         | |- context [hhn_euler_multiple ?K ?c ?V ?n ?row ?N ?I ?h ?S] =>
             let E := fresh "Eeuler" in
             destruct (hhn_euler_multiple K c V n row N I h S)
               as [[?V' ?n'] ?row'] eqn:E
         | |- context [update_terminal_synapse ?K ?a ?b ?c ?d ?e ?f ?g ?h ?i
                         ?j ?k ?l] =>
             let E := fresh "Esyn" in
             destruct (update_terminal_synapse K a b c d e f g h i j k l)
               as [?g' ?mem'] eqn:E
         end;
  cbn [fst snd MockSystem.neurons MockSystem.buffer MockSystem.synapses
       MockSystem.self MorrisLecar.V MorrisLecar.n MorrisLecar.I_pre
       MorrisLecar.steps MorrisLecar.ddt MorrisLecar.dt
       MorrisLecar.num_input CircularArray.buffer CircularArray.current
       CircularArray.delay_steps VectorSynapse.conductance
       CircularArray.step].

(** ** Launch geometry *)

(** The block and grid shapes the four [get_..._func] methods compute
    (integer [/] of Python 2). *)
Module Launch.

(** [get_euler_kernel] *)
Definition update_block : Z * Z * Z := (128, 1, 1).
Definition update_grid (num_neurons : Z) : Z * Z :=
  ((num_neurons - 1) / 128 + 1, 1).

(** [get_euler_kernel1] *)
Definition update_block1 : Z * Z * Z := (64, 2, 1).
Definition update_grid1 (num_neurons : Z) : Z * Z :=
  ((num_neurons - 1) / 64 + 1, 1).

(** [get_input_func] *)
Definition block_get_input : Z * Z * Z := (32, 32, 1).
Definition grid_get_input (num_neurons : Z) : Z * Z :=
  ((num_neurons - 1) / 32 + 1, 1).

(** [get_update_terminal_synapse_func]; [multiprocessor_count] is the
    device's [MULTIPROCESSOR_COUNT]. *)
Definition block_terminal_synapse : Z * Z * Z := (256, 1, 1).
Definition grid_terminal_synapse (multiprocessor_count num_synapse : Z)
    : Z * Z :=
  (Z.min (6 * multiprocessor_count) ((num_synapse - 1) / 256 + 1), 1).

End Launch.

(** ** Names for what the statements below speak of *)

(** The local array [post_neuron] of [init_gpu]: the second batch of draws,
    stored as int32 and sorted. *)
Definition sorted_post_neuron `{R : NumpyRandom} (self : MockSystem.t)
    (w : World) : list Z :=
  let N := MockSystem.num_neurons self in
  let nsyn := Z.to_nat (MockSystem.num_synapses self) in
  let rng1 := (np_draws 0 N nsyn (np_rng w)).2 in
  merge_sort Z.le (Py.wrap32 <$> (np_draws 0 N nsyn rng1).1).

(** The number of entries of [l] below [i]. *)
Fixpoint below (i : Z) (l : list Z) : nat :=
  match l with
  | [] => O
  | y :: l' => ((if (y <? i)%Z then 1 else 0) + below i l')%nat
  end.

(** The deviates a [random] state yields from the [off]-th on. *)
Definition deviates_from (st : rd_state) (off : nat) : rd_state :=
  fun k => st (off + k)%nat.

(** The system after the first [k] ticks of a run. *)
Definition after (K : Kernels) (s : MockSystem.gpu)
    (I_ext out : list (list double)) (k : nat) : MockSystem.gpu :=
  (MockSystem.run K s (take k I_ext) (take k out)).1.

(** What construction fixes: everything but the accumulator, the state
    [V], [n], the conductances, the scratch array, the rows of the buffer
    and its cursor. *)
Definition static (s : MockSystem.gpu) :=
  let nr := MockSystem.neurons s in
  let syn := MockSystem.synapses s in
  let buf := MockSystem.buffer s in
  (MockSystem.self s, MockSystem.num_dendrites s, MockSystem.delay_steps s,
   (CircularArray.num_neurons buf, CircularArray.delay_steps buf,
    length (CircularArray.buffer buf)),
   (MorrisLecar.num_cart nr, MorrisLecar.num_types nr,
    MorrisLecar.num_neurons nr, MorrisLecar.dt nr, MorrisLecar.steps nr,
    MorrisLecar.ddt nr, MorrisLecar.cum_num_dendrite nr,
    MorrisLecar.num_dendrite nr, MorrisLecar.num_input nr,
    MorrisLecar.update nr),
   (VectorSynapse.dt syn, VectorSynapse.num_synapse syn,
    VectorSynapse.pre_neuron syn, VectorSynapse.threshold syn,
    VectorSynapse.slope syn, VectorSynapse.power syn,
    VectorSynapse.saturation syn, VectorSynapse.delay syn,
    VectorSynapse.V_rev syn)).

(** ** Numbers *)

Example int_round_ties_away :
  Py.int_round 2.5 = Some 3 /\ Py.int_round (-2.5) = Some (-3)
  /\ Py.int_round 0.49999999999999994 = Some 0
  /\ Py.int_round PrimFloat.infinity = None.
Proof. repeat split; vm_compute; reflexivity. Qed.

Example round_astype_ties_even :
  Py.round_astype_int32 2.5 = 2 /\ Py.round_astype_int32 3.5 = 4
  /\ Py.round_astype_int32 (-0.5) = 0 /\ Py.round_astype_int32 1e10 = - 2 ^ 31.
Proof. repeat split; vm_compute; reflexivity. Qed.

Example int_truncates :
  Py.int 6.9 = Some 6 /\ Py.int (-6.9) = Some (-6)
  /\ Py.int (6 * Py.of_int 11520)%float = Some 69120.
Proof. repeat split; vm_compute; reflexivity. Qed.

(** The quotients of the usual tick: [1e-3 / 1e-4] and [1e-4 / 1e-5] are
    both the float 10. *)
Example usual_tick :
  Py.int_round (1e-3 / 1e-4)%float = Some 10
  /\ Py.int_round (1e-4 / 1e-5)%float = Some 10
  /\ VectorSynapse.tick_delay 1 1e-4 = 10.
Proof. repeat split; vm_compute; reflexivity. Qed.

(** ** float64 in memory: the bytes determine the float *)

Lemma digits2_bounds (m : positive) :
  2 ^ (Z.pos (SpecFloat.digits2_pos m) - 1) <= Z.pos m
  < 2 ^ Z.pos (SpecFloat.digits2_pos m).
Proof.
  induction m as [m IH|m IH|]; cbn [SpecFloat.digits2_pos].
  - rewrite Pos2Z.inj_succ.
    replace (Z.succ (Z.pos (SpecFloat.digits2_pos m)) - 1)
      with (Z.succ (Z.pos (SpecFloat.digits2_pos m) - 1)) by lia.
    rewrite !Z.pow_succ_r by lia. lia.
  - rewrite Pos2Z.inj_succ.
    replace (Z.succ (Z.pos (SpecFloat.digits2_pos m)) - 1)
      with (Z.succ (Z.pos (SpecFloat.digits2_pos m) - 1)) by lia.
    rewrite !Z.pow_succ_r by lia. lia.
  - simpl. lia.
Qed.

(** The three fields are read back from the 64 bits. *)
Lemma bits_fields (s : bool) (E f : Z) :
  0 <= E < 2048 -> 0 <= f < 2 ^ 52 ->
  let z := Binary64.sign_bit s + E * 2 ^ 52 + f in
  (2 ^ 63 <=? z) = s /\ z / 2 ^ 52 mod 2048 = E /\ z mod 2 ^ 52 = f.
Proof.
  intros HE Hf z. subst z. unfold Binary64.sign_bit.
  change (2 ^ 63) with (2048 * 2 ^ 52).
  set (P := 2 ^ 52) in *. assert (HP : 0 < P) by (subst P; lia).
  destruct s.
  - replace (2048 * P + E * P + f) with (f + (2048 + E) * P) by lia.
    rewrite Z.mod_add, Z.div_add, Z.div_small, (Z.mod_small f) by lia.
    replace (0 + (2048 + E)) with (E + 1 * 2048) by lia.
    rewrite Z.mod_add, Z.mod_small by lia.
    repeat split. apply Z.leb_le. nia.
  - replace (0 + E * P + f) with (f + E * P) by lia.
    rewrite Z.mod_add, Z.div_add, Z.div_small, (Z.mod_small f) by lia.
    rewrite Z.add_0_l, Z.mod_small by lia.
    repeat split. apply Z.leb_gt. nia.
Qed.

(** Every float has 64 bits, and they determine it. *)
Lemma bits_spec (x : double) :
  0 <= Binary64.bits x < 2 ^ 64 /\ Binary64.of_bits (Binary64.bits x) = x.
Proof.
  rewrite <- (FloatAxioms.SF2Prim_Prim2SF x) at 4.
  pose proof (FloatAxioms.Prim2SF_valid x) as Hv.
  unfold Binary64.of_bits, Binary64.bits.
  assert (Hsign : forall s, 0 <= Binary64.sign_bit s <= 2 ^ 63)
    by (intros []; simpl; lia).
  destruct (FloatOps.Prim2SF x) as [s|s| |s m e].
  - destruct (bits_fields s 0 0 ltac:(lia) ltac:(lia)) as (H1 & H2 & H3).
    rewrite Z.mul_0_l, !Z.add_0_r in H1, H2, H3. rewrite H1, H2, H3.
    split; [|reflexivity]. specialize (Hsign s). lia.
  - destruct (bits_fields s 2047 0 ltac:(lia) ltac:(lia)) as (H1 & H2 & H3).
    rewrite Z.add_0_r in H1, H2, H3. rewrite H1, H2, H3.
    split; [|reflexivity]. specialize (Hsign s). lia.
  - split; [lia|reflexivity].
  - cbn [SpecFloat.valid_binary] in Hv. unfold SpecFloat.bounded in Hv.
    apply andb_true_iff in Hv as [Hc He].
    unfold SpecFloat.canonical_mantissa, SpecFloat.fexp, SpecFloat.emin in Hc.
    apply Z.eqb_eq in Hc. apply Z.leb_le in He.
    change FloatOps.prec with 53 in *. change FloatOps.emax with 1024 in *.
    pose proof (digits2_bounds m) as Hd.
    set (d := Z.pos (SpecFloat.digits2_pos m)) in *.
    assert (Hd1 : 1 <= d) by (subst d; lia).
    specialize (Hsign s).
    destruct (Z.leb_spec (2 ^ 52) (Z.pos m)) as [Hn|Hs].
    + assert (H53 : d = 53).
      { destruct (Z.lt_trichotomy d 53) as [Hlt|[->|Hgt]]; [|reflexivity|lia].
        exfalso. assert (2 ^ d <= 2 ^ 52) by (apply Z.pow_le_mono_r; lia).
        lia. }
      rewrite H53 in Hd.
      destruct (bits_fields s (e + 1075) (Z.pos m - 2 ^ 52) ltac:(lia)
                  ltac:(lia)) as (H1 & H2 & H3).
      rewrite H1, H2, H3.
      destruct (Z.eqb_spec (e + 1075) 0); [lia|].
      destruct (Z.eqb_spec (e + 1075) 2047); [lia|].
      split; [nia|]. f_equal. f_equal; [|lia].
      replace (Z.pos m - 2 ^ 52 + 2 ^ 52) with (Z.pos m) by lia. reflexivity.
    + assert (Hd52 : d <= 52).
      { destruct (Z.le_gt_cases d 52) as [Hle|Hgt]; [exact Hle|]. exfalso.
        assert (2 ^ 52 <= 2 ^ (d - 1)) by (apply Z.pow_le_mono_r; lia). lia. }
      assert (e = -1074) by lia. subst e.
      destruct (bits_fields s 0 (Z.pos m) ltac:(lia) ltac:(lia))
        as (H1 & H2 & H3).
      rewrite Z.mul_0_l, Z.add_0_r in H1, H2, H3. rewrite H1, H2, H3.
      destruct (Z.eqb_spec (Z.pos m) 0); [lia|].
      split; [lia|reflexivity].
Qed.

(** A number below [2^64] is the sum of its eight bytes. *)
Lemma bytes_sum (z : Z) :
  0 <= z < 2 ^ 64 ->
  foldr (fun k acc => z / 2 ^ (8 * k) mod 256 * 2 ^ (8 * k) + acc) 0
        (seqZ 0 Binary64.itemsize) = z.
Proof.
  intros Hz.
  change (seqZ 0 Binary64.itemsize) with [0; 1; 2; 3; 4; 5; 6; 7].
  cbn [foldr].
  change (8 * 0) with 0. change (8 * 1) with 8. change (8 * 2) with 16.
  change (8 * 3) with 24. change (8 * 4) with 32. change (8 * 5) with 40.
  change (8 * 6) with 48. change (8 * 7) with 56.
  assert (Hq : forall a, 0 < a -> z / (a * 256) = z / a / 256)
    by (intros a Ha; rewrite Z.div_div by lia; reflexivity).
  change (2 ^ 0) with 1. rewrite Z.div_1_r.
  change (2 ^ 8) with (1 * 256). change (2 ^ 16) with (1 * 256 * 256).
  change (2 ^ 24) with (1 * 256 * 256 * 256).
  change (2 ^ 32) with (1 * 256 * 256 * 256 * 256).
  change (2 ^ 40) with (1 * 256 * 256 * 256 * 256 * 256).
  change (2 ^ 48) with (1 * 256 * 256 * 256 * 256 * 256 * 256).
  change (2 ^ 56) with (1 * 256 * 256 * 256 * 256 * 256 * 256 * 256).
  rewrite !Hq by lia. rewrite Z.div_1_r.
  remember (z / 256) as q1 eqn:E1. remember (q1 / 256) as q2 eqn:E2.
  remember (q2 / 256) as q3 eqn:E3. remember (q3 / 256) as q4 eqn:E4.
  remember (q4 / 256) as q5 eqn:E5. remember (q5 / 256) as q6 eqn:E6.
  remember (q6 / 256) as q7 eqn:E7.
  pose proof (Z.mod_pos_bound z 256 ltac:(lia)).
  pose proof (Z.mod_pos_bound q1 256 ltac:(lia)).
  pose proof (Z.mod_pos_bound q2 256 ltac:(lia)).
  pose proof (Z.mod_pos_bound q3 256 ltac:(lia)).
  pose proof (Z.mod_pos_bound q4 256 ltac:(lia)).
  pose proof (Z.mod_pos_bound q5 256 ltac:(lia)).
  pose proof (Z.mod_pos_bound q6 256 ltac:(lia)).
  pose proof (Z.div_mod z 256 ltac:(lia)).
  pose proof (Z.div_mod q1 256 ltac:(lia)).
  pose proof (Z.div_mod q2 256 ltac:(lia)).
  pose proof (Z.div_mod q3 256 ltac:(lia)).
  pose proof (Z.div_mod q4 256 ltac:(lia)).
  pose proof (Z.div_mod q5 256 ltac:(lia)).
  pose proof (Z.div_mod q6 256 ltac:(lia)).
  rewrite <- E1, <- E2, <- E3, <- E4, <- E5, <- E6, <- E7 in *.
  assert (Hq7 : 0 <= q7 < 256) by lia.
  rewrite (Z.mod_small q7) by exact Hq7. lia.
Qed.

Lemma of_bytes_byte (x : double) : Binary64.of_bytes (Binary64.byte x) = x.
Proof.
  unfold Binary64.of_bytes, Binary64.byte.
  destruct (bits_spec x) as [Hr Hx].
  rewrite (bytes_sum (Binary64.bits x) Hr). exact Hx.
Qed.

(** Only the eight bytes of a cell matter. *)
Lemma of_bytes_ext (b b' : Z -> Z) :
  (forall k, 0 <= k < Binary64.itemsize -> b k = b' k) ->
  Binary64.of_bytes b = Binary64.of_bytes b'.
Proof.
  intros Hb. unfold Binary64.of_bytes. f_equal.
  assert (Hin : Forall (fun k => 0 <= k < Binary64.itemsize)
                       (seqZ 0 Binary64.itemsize))
    by (apply Forall_seqZ; intros; lia).
  induction Hin as [|k l Hk _ IH]; [reflexivity|].
  cbn [foldr]. now rewrite IH, (Hb k Hk).
Qed.

(** ** The delay buffer after construction *)

Lemma memcpy_bytes_outside (mem : bytes) (dst : Z) (src : list double) (a : Z) :
  a < dst \/ dst + Binary64.itemsize * Z.of_nat (length src) <= a ->
  memcpy_bytes mem dst src a = mem a.
Proof.
  intros Ha. unfold memcpy_bytes, Binary64.itemsize in *.
  destruct (Z.leb_spec dst a) as [Hle|Hlt].
  - rewrite lookup_ge_None_2; [reflexivity|].
    assert (Z.of_nat (length src) <= (a - dst) / 8)
      by (apply Z.div_le_lower_bound; lia).
    lia.
  - now destruct (src !! _).
Qed.

Lemma memcpy_bytes_inside (mem : bytes) (dst : Z) (src : list double)
    (i : nat) (k : Z) (x : double) :
  src !! i = Some x -> 0 <= k < Binary64.itemsize ->
  memcpy_bytes mem dst src (dst + Binary64.itemsize * Z.of_nat i + k)
  = Binary64.byte x k.
Proof.
  intros Hx Hk. unfold memcpy_bytes, Binary64.itemsize in *.
  replace (dst + 8 * Z.of_nat i + k - dst) with (k + Z.of_nat i * 8) by lia.
  rewrite Z.div_add, Z.mod_add, Z.div_small, Z.mod_small by lia.
  rewrite Z.add_0_l, Nat2Z.id, Hx.
  destruct (Z.leb_spec dst (dst + 8 * Z.of_nat i + k)); [reflexivity|lia].
Qed.

Lemma grid_length (a : parray) (rows cols : Z) :
  length (grid a rows cols) = Z.to_nat rows.
Proof. unfold grid. now rewrite length_fmap, length_seqZ. Qed.

Lemma grid_lookup (a : parray) (rows cols r : Z) :
  0 <= r < rows ->
  grid a rows cols !! Z.to_nat r
  = Some ((fun c => cell (gpudata a) (r * ld a + c)) <$> seqZ 0 cols).
Proof.
  intros Hr. unfold grid. rewrite list_lookup_fmap, lookup_seqZ_lt by lia.
  cbn [fmap option_fmap option_map]. now rewrite Z.add_0_l, Z2Nat.id by lia.
Qed.

Lemma grid_rows (a : parray) (rows cols : Z) :
  Forall (fun row => length row = Z.to_nat cols) (grid a rows cols).
Proof.
  unfold grid. apply Forall_fmap, Forall_forall. intros r _. simpl.
  now rewrite length_fmap, length_seqZ.
Qed.

Section Prefill.
Context (rest : list double).

Lemma fill_rows_ld (rows : list Z) :
  forall buf, ld (CircularArray.fill_rows rest buf rows) = ld buf.
Proof.
  induction rows as [|i rows IH]; intros buf; [reflexivity|].
  cbn [CircularArray.fill_rows foldl]. unfold CircularArray.fill_rows in IH.
  now rewrite IH.
Qed.

(** The loop leaves every byte that none of its copies covers as it was. *)
Lemma fill_rows_outside (rows : list Z) :
  forall (buf : parray) (a : Z),
    (forall i, i ∈ rows ->
       a < ld buf * i
       \/ ld buf * i + Binary64.itemsize * Z.of_nat (length rest) <= a) ->
    gpudata (CircularArray.fill_rows rest buf rows) a = gpudata buf a.
Proof.
  induction rows as [|i rows IH]; intros buf a Ha; [reflexivity|].
  cbn [CircularArray.fill_rows foldl]. unfold CircularArray.fill_rows in IH.
  rewrite IH.
  - cbn [gpudata]. apply memcpy_bytes_outside, Ha, elem_of_cons. now left.
  - cbn [ld]. intros j Hj. apply Ha, elem_of_cons. now right.
Qed.

Lemma init_Some (num_neurons delay_steps ld0 : Z) (uninit : double)
    (b : CircularArray.t) :
  CircularArray.init num_neurons delay_steps rest ld0 uninit = Some b ->
  1 <= delay_steps
  /\ CircularArray.num_neurons b = num_neurons
  /\ CircularArray.delay_steps b = delay_steps
  /\ CircularArray.current b = 0
  /\ CircularArray.buffer b
     = grid (CircularArray.fill_rows rest
               {| gpudata := fun a =>
                    Binary64.byte uninit (a mod Binary64.itemsize);
                  ld := ld0 |}
               (seqZ 0 delay_steps))
            delay_steps num_neurons.
Proof.
  unfold CircularArray.init, parray_empty.
  destruct (Z.ltb_spec 0 delay_steps); [|discriminate].
  cbn [mbind option_bind]. intros [= <-]. repeat split. lia.
Qed.

Lemma init_shape (num_neurons delay_steps ld0 : Z) (uninit : double)
    (b : CircularArray.t) :
  CircularArray.init num_neurons delay_steps rest ld0 uninit = Some b ->
  length (CircularArray.buffer b) = Z.to_nat delay_steps
  /\ Forall (fun row => length row = Z.to_nat num_neurons)
            (CircularArray.buffer b).
Proof.
  intros Hb. apply init_Some in Hb as (_ & _ & _ & _ & ->).
  split; [apply grid_length | apply grid_rows].
Qed.

(** A byte of the first copy that lies in front of the second one is a
    byte of the resting vector. *)
Lemma fill_rows_first (buf : parray) (delay_steps : Z) (i : nat) (k : Z)
    (x : double) :
  1 <= delay_steps -> rest !! i = Some x -> 0 <= k < Binary64.itemsize ->
  delay_steps = 1 \/ Binary64.itemsize * (Z.of_nat i + 1) <= ld buf ->
  gpudata (CircularArray.fill_rows rest buf (seqZ 0 delay_steps))
          (Binary64.itemsize * Z.of_nat i + k)
  = Binary64.byte x k.
Proof.
  intros HD Hx Hk Hfront.
  rewrite seqZ_cons by lia. cbn [CircularArray.fill_rows foldl].
  change (foldl ?f ?a ?l) with (CircularArray.fill_rows rest a l).
  rewrite fill_rows_outside.
  - cbn [gpudata]. rewrite Z.mul_0_r.
    apply (memcpy_bytes_inside (gpudata buf) 0 rest i k x Hx Hk).
  - cbn [ld]. intros j Hj. apply elem_of_seqZ in Hj. left.
    unfold Binary64.itemsize in *. nia.
Qed.

(** A row that begins behind the last byte the loop writes holds what the
    allocation held.  The copies begin [ld * i] bytes behind the address of
    the buffer, for [i < delay_steps], and are [8 * num_neurons] bytes
    long; row [r] begins [8 * (r * ld)] bytes behind it. *)
Lemma init_row_untouched (num_neurons delay_steps ld0 : Z) (uninit : double)
    (b : CircularArray.t) (r : Z) :
  CircularArray.init num_neurons delay_steps rest ld0 uninit = Some b ->
  Z.of_nat (length rest) = num_neurons -> 0 <= ld0 ->
  0 <= r < delay_steps ->
  ld0 * (delay_steps - 1) + Binary64.itemsize * num_neurons
  <= Binary64.itemsize * (r * ld0) ->
  CircularArray.buffer b !! Z.to_nat r
  = Some (replicate (Z.to_nat num_neurons) uninit).
Proof.
  intros Hb Hlen Hld HrD Hr.
  apply init_Some in Hb as (HD & _ & _ & _ & ->).
  rewrite grid_lookup by lia. f_equal.
  apply list_eq. intros j.
  rewrite list_lookup_fmap.
  destruct (decide (j < Z.to_nat num_neurons)%nat) as [Hj|Hj].
  - rewrite lookup_seqZ_lt, lookup_replicate_2 by lia.
    cbn [fmap option_fmap option_map]. f_equal.
    rewrite fill_rows_ld. cbn [ld]. unfold cell.
    transitivity (Binary64.of_bytes (Binary64.byte uninit));
      [|apply of_bytes_byte].
    apply of_bytes_ext. intros k Hk.
    rewrite fill_rows_outside.
    + cbn [gpudata]. f_equal. unfold Binary64.itemsize in *.
      replace (8 * (r * ld0 + (0 + Z.of_nat j)) + k)
        with (k + (r * ld0 + Z.of_nat j) * 8) by lia.
      rewrite Z.mod_add by lia. apply Z.mod_small. lia.
    + cbn [ld]. intros i Hi. apply elem_of_seqZ in Hi. right.
      unfold Binary64.itemsize in *. nia.
  - rewrite lookup_seqZ_ge by lia. cbn [fmap option_fmap option_map].
    symmetry. apply lookup_replicate_None. lia.
Qed.

End Prefill.

(** C7 on the code.  The loop of [__init__] copies the resting vector to
    the addresses [ld * i] bytes behind the buffer's, while row [i] begins
    [ld * i * 8] bytes behind it: the last byte the loop writes is byte
    [ld * (D - 1) + 8 * num_neurons - 1], and every row that begins behind
    it holds what the allocation held, in every cell.  Whatever the leading
    dimension [ld >= num_neurons] is, these are at least the rows [r] with
    [D + 7 <= 8 * r]; a delayed read right after construction with a delay
    [1 <= d <= 7 * (D - 1) / 8] addresses such a row and returns what the
    allocation held, not the resting voltage. *)
Theorem prefill_misses_rows
    (num_neurons D ld0 : Z) (rest : list double) (uninit : double)
    (b : CircularArray.t) :
  CircularArray.init num_neurons D rest ld0 uninit = Some b ->
  Z.of_nat (length rest) = num_neurons ->
  1 <= num_neurons <= ld0 ->
  (forall r, 0 <= r < D ->
     ld0 * (D - 1) + 8 * num_neurons <= 8 * (r * ld0) \/ D + 7 <= 8 * r ->
     CircularArray.buffer b !! Z.to_nat r
     = Some (replicate (Z.to_nat num_neurons) uninit))
  /\ (forall i d, 0 <= i < num_neurons -> 1 <= d -> 8 * d <= 7 * (D - 1) ->
        CircularArray.read b i d = Some uninit
        /\ (rest !! Z.to_nat i <> Some uninit ->
            CircularArray.read b i d <> rest !! Z.to_nat i)).
Proof.
  intros Hb Hlen HN.
  assert (Hrows : forall r, 0 <= r < D ->
            ld0 * (D - 1) + 8 * num_neurons <= 8 * (r * ld0)
            \/ D + 7 <= 8 * r ->
            CircularArray.buffer b !! Z.to_nat r
            = Some (replicate (Z.to_nat num_neurons) uninit)).
  { intros r HrD Hr.
    apply (init_row_untouched rest num_neurons D ld0 uninit b r);
      try assumption; try lia.
    unfold Binary64.itemsize. destruct Hr as [Hr|Hr]; [exact Hr|nia]. }
  split; [exact Hrows|].
  intros i d Hi Hd1 Hd.
  assert (Hread : CircularArray.read b i d = Some uninit).
  { unfold CircularArray.read.
    apply init_Some in Hb as (HD & _ & -> & -> & _).
    replace ((0 - d) mod D) with (D - d).
    - rewrite Hrows by lia. cbn [mbind option_bind].
      apply lookup_replicate_2. lia.
    - symmetry. replace (0 - d) with (D - d + (-1) * D) by lia.
      rewrite Z.mod_add by lia. apply Z.mod_small. lia. }
  split; [exact Hread|]. intros Hne. rewrite Hread. congruence.
Qed.

Lemma prefill_misses_rows_witness :
  exists b,
    CircularArray.init 15 10 (replicate 15 (-0.51)%float) 64 PrimFloat.nan
    = Some b
    /\ CircularArray.buffer b !! Z.to_nat 2
       = Some (replicate (Z.to_nat 15) PrimFloat.nan)
    /\ CircularArray.read b 3 1 = Some PrimFloat.nan.
Proof.
  eexists.
  match goal with
  | |- ?A /\ _ => assert (Hb : A) by (vm_compute; reflexivity)
  end.
  split; [exact Hb|].
  destruct (prefill_misses_rows _ _ _ _ _ _ Hb eq_refl ltac:(lia))
    as [Hrows Hread].
  split.
  - apply Hrows; lia.
  - exact (proj1 (Hread 3 1 ltac:(lia) ltac:(lia) ltac:(lia))).
Defined.

(** ** What a successful construction leaves *)

Lemma gauss_list_length (mu sigma : double) (size : nat) :
  forall st, length (gauss_list mu sigma size st).1 = size.
Proof.
  induction size as [|k IH]; intros st; simpl; [reflexivity|].
  specialize (IH (fun i => st (S i))).
  destruct (gauss_list mu sigma k (fun i => st (S i))) as [l st2].
  simpl in *. now rewrite IH.
Qed.

Lemma np_draws_length `{NumpyRandom} (low high : Z) (size : nat) :
  forall st, length (np_draws low high size st).1 = size.
Proof.
  induction size as [|k IH]; intros st; simpl; [reflexivity|].
  destruct (np_draw low high st) as [x st1].
  specialize (IH st1).
  destruct (np_draws low high k st1) as [l st2].
  simpl in *. now rewrite IH.
Qed.

Lemma np_draws_range `{R : NumpyRandom} (low high : Z) (size : nat) :
  np_draw_in_range R -> low <= high ->
  forall st, Forall (fun x => low <= x <= high) (np_draws low high size st).1.
Proof.
  intros Hrange Hlh. induction size as [|k IH]; intros st; simpl;
    [constructor|].
  pose proof (Hrange low high st Hlh) as Hx.
  destruct (np_draw low high st) as [x st1].
  specialize (IH st1).
  destruct (np_draws low high k st1) as [l st2].
  simpl in *. now constructor.
Qed.

Lemma countdown_in_range : np_draw_in_range Demo.countdown.
Proof.
  intros low high st Hlh. simpl.
  pose proof (Z.mod_pos_bound st (high - low + 1) ltac:(lia)). lia.
Qed.

Lemma Py_max_replicate_one (k : nat) :
  Py.max (replicate (S k) Py.one) = Some Py.one.
Proof.
  simpl. f_equal. induction k as [|k IH]; simpl; [reflexivity|].
  exact IH.
Qed.

Lemma random_integers_Some `{NumpyRandom} low high size st r :
  random_integers low high size st = Some r ->
  low <= high /\ 0 <= size /\ r = np_draws low high (Z.to_nat size) st.
Proof.
  unfold random_integers.
  destruct (high <? low) eqn:E1; destruct (size <? 0) eqn:E2; simpl;
    try discriminate.
  intros [= <-]. apply Z.ltb_ge in E1, E2. repeat split; lia.
Qed.

Section Construction.
Context `{R : NumpyRandom}.

Lemma init_gpu_inv (s : MockSystem.t) (w w' : World) (g : MockSystem.gpu) :
  MockSystem.init_gpu s w = Some (g, w') ->
  let N := MockSystem.num_neurons s in
  let nsyn := Z.to_nat (MockSystem.num_synapses s) in
  exists rng1 (V : list double) D S0 k,
    MockSystem.self g = s
    /\ 0 <= N /\ 1 <= MockSystem.num_synapses s
    /\ bincount (merge_sort Z.le
                   (Py.wrap32 <$> (np_draws 0 N nsyn rng1).1))
       = Some (MockSystem.num_dendrites g)
    /\ rng1 = (np_draws 0 N nsyn (np_rng w)).2
    /\ Py.int_round (Py.one * 1e-3 / MockSystem.dt s)%float = Some D
    /\ MockSystem.delay_steps g = D
    /\ length V = Z.to_nat N
    /\ CircularArray.init N D V (dev_ld w D N) (dev_uninit w)
       = Some (MockSystem.buffer g)
    /\ Py.int_round (MockSystem.dt s / 1e-5)%float = Some S0
    /\ Py.floordiv (MockSystem.num_in_non s) N = Some k
    /\ Py.index (MockSystem.start_idx s) k
       = Some (MorrisLecar.num_input (MockSystem.neurons g))
    /\ MorrisLecar.steps (MockSystem.neurons g) = Z.max S0 1
    /\ MorrisLecar.ddt (MockSystem.neurons g)
       = (MockSystem.dt s / Py.of_int (Z.max S0 1))%float
    /\ MorrisLecar.dt (MockSystem.neurons g) = MockSystem.dt s
    /\ MorrisLecar.V (MockSystem.neurons g) = V
    /\ MorrisLecar.I_pre (MockSystem.neurons g)
       = replicate (Z.to_nat N) Py.zero
    /\ MorrisLecar.num_dendrite (MockSystem.neurons g)
       = MockSystem.num_dendrites g
    /\ MorrisLecar.cum_num_dendrite (MockSystem.neurons g)
       = 0 :: cumsum32 0 (MockSystem.num_dendrites g)
    /\ VectorSynapse.pre_neuron (MockSystem.synapses g)
       = Py.wrap32 <$> (np_draws 0 N nsyn (np_rng w)).1
    /\ VectorSynapse.delay (MockSystem.synapses g)
       = (fun d => VectorSynapse.tick_delay d (MockSystem.dt s))
           <$> replicate nsyn Py.one.
Proof.
  intros H N nsyn. unfold MockSystem.init_gpu in H.
  fold N in H.
  destruct (random_integers 0 N (MockSystem.num_synapses s) (np_rng w))
    as [[pre_raw rng1]|] eqn:Epre; simpl in H; [|discriminate].
  destruct (random_integers 0 N (MockSystem.num_synapses s) rng1)
    as [[post_raw rng2]|] eqn:Epost; simpl in H; [|discriminate].
  apply random_integers_Some in Epre as (HN & Hsyn & Epre).
  apply random_integers_Some in Epost as (_ & _ & Epost).
  fold nsyn in Epre, Epost, H.
  destruct (bincount (merge_sort Z.le (Py.wrap32 <$> post_raw)))
    as [nd|] eqn:Ebin; simpl in H; [|discriminate].
  repeat match type of H with
         | context [gauss_list ?mu ?sg ?k ?st] =>
             let l := fresh "l" in let st' := fresh "st" in
             let E := fresh "E" in
             destruct (gauss_list mu sg k st) as [l st'] eqn:E
         end.
  assert (Hns : nsyn = Z.to_nat (MockSystem.num_synapses s)) by reflexivity.
  clearbody nsyn.
  destruct nsyn as [|nsyn']; [discriminate H|].
  rewrite Py_max_replicate_one in H.
  change (Some Py.one ≫= ?f) with (f Py.one) in H. cbv beta in H.
  destruct (Py.int_round (Py.one * 1e-3 / MockSystem.dt s)%float)
    as [D|] eqn:ED; [|discriminate].
  change (Some D ≫= ?f) with (f D) in H. cbv beta in H.
  destruct (CircularArray.init _ _ _ _ _) as [buf|] eqn:Ebuf; [|discriminate].
  change (Some buf ≫= ?f) with (f buf) in H. cbv beta in H.
  destruct (Py.floordiv (MockSystem.num_in_non s) N)
    as [k|] eqn:Ek; [|discriminate].
  change (Some k ≫= ?f) with (f k) in H. cbv beta in H.
  unfold MorrisLecar.init in H.
  destruct (Py.int_round (MockSystem.dt s / 1e-5)%float)
    as [S0|] eqn:ES; [|discriminate].
  change (Some S0 ≫= ?f) with (f S0) in H. cbv beta in H.
  destruct (Py.index (MockSystem.start_idx s) k)
    as [ni|] eqn:Eni; [|discriminate].
  injection H as <- <-.
  exists rng1, l8, D, S0, k.
  assert (Hl8 : length l8 = Z.to_nat N).
  { pose proof (gauss_list_length (-0.51) 0.01 (Z.to_nat N) st7) as HV.
    now rewrite E8 in HV. }
  rewrite <- Epre, <- Epost. cbn [fst snd].
  repeat split; try reflexivity; try assumption; try lia.
Qed.

End Construction.

(** ** Dendrite counts and the offset table *)

Lemma wrap32_small (z : Z) : - 2 ^ 31 <= z < 2 ^ 31 -> Py.wrap32 z = z.
Proof. intros Hz. unfold Py.wrap32. rewrite Z.mod_small; lia. Qed.

Lemma Zsum_nonneg (x : list Z) : Forall (fun c => 0 <= c) x -> 0 <= Zsum x.
Proof. induction 1; simpl; lia. Qed.

(** While the total fits an int32 the running sums never wrap: every entry
    of the table is the previous one plus the count of that neuron, and the
    last one is the total. *)
Lemma cumsum32_table (x : list Z) :
  forall acc,
    0 <= acc -> Forall (fun c => 0 <= c) x -> acc + Zsum x < 2 ^ 31 ->
    length (acc :: cumsum32 acc x) = S (length x)
    /\ (forall i c, x !! i = Some c ->
          exists a, (acc :: cumsum32 acc x) !! i = Some a
                    /\ (acc :: cumsum32 acc x) !! S i = Some (a + c))
    /\ last (acc :: cumsum32 acc x) = Some (acc + Zsum x).
Proof.
  induction x as [|c x IH]; intros acc Hacc Hx Hsum.
  - simpl. repeat split; [|f_equal; lia].
    intros i c Hi. now rewrite lookup_nil in Hi.
  - apply Forall_cons in Hx as [Hc Hx]. simpl in Hsum.
    pose proof (Zsum_nonneg x Hx) as Hnn.
    assert (Hw : Py.wrap32 (acc + c) = acc + c) by (apply wrap32_small; lia).
    destruct (IH (acc + c)) as (Hlen & Hstep & Hlast); [lia|assumption|lia|].
    cbn [cumsum32]. rewrite Hw. repeat split.
    + simpl in *. lia.
    + intros [|i] c' Hi.
      * injection Hi as <-. exists acc. split; reflexivity.
      * apply (Hstep i c' Hi).
    + change (last (acc :: acc + c :: cumsum32 (acc + c) x))
        with (last (acc + c :: cumsum32 (acc + c) x)).
      rewrite Hlast. simpl. f_equal. lia.
Qed.

Lemma Zsum_app (x y : list Z) : Zsum (x ++ y) = Zsum x + Zsum y.
Proof. unfold Zsum. induction x as [|c x IH]; simpl; lia. Qed.

Lemma Zsum_take_le (x : list Z) (i : nat) :
  Forall (fun c => 0 <= c) x -> 0 <= Zsum (take i x) <= Zsum x.
Proof.
  intros Hx. rewrite <- (take_drop i x) at 3. rewrite Zsum_app.
  pose proof (Zsum_nonneg (take i x) (Forall_take _ _ _ Hx)).
  pose proof (Zsum_nonneg (drop i x) (Forall_drop _ _ _ Hx)). lia.
Qed.

(** The table entry of neuron [i] is the sum of the counts before it. *)
Lemma cumsum32_prefix (x : list Z) (i : nat) :
  Forall (fun c => 0 <= c) x -> Zsum x < 2 ^ 31 -> (i <= length x)%nat ->
  (0 :: cumsum32 0 x) !! i = Some (Zsum (take i x)).
Proof.
  intros Hx Hfit.
  destruct (cumsum32_table x 0 ltac:(lia) Hx ltac:(lia)) as (_ & Hstep & _).
  induction i as [|i IH]; intros Hi; [reflexivity|].
  destruct (lookup_lt_is_Some_2 x i) as [c Hc]; [lia|].
  destruct (Hstep i c Hc) as (a & Ha & HSa).
  rewrite IH in Ha by lia. injection Ha as <-.
  rewrite HSa, (take_S_r _ _ _ Hc), Zsum_app. simpl. f_equal. lia.
Qed.

Lemma Zsum_indicator (a : Z) (n : nat) :
  forall m,
    Zsum ((fun k => if Z.eq_dec a k then 1 else 0) <$> seqZ m (Z.of_nat n))
    = if (m <=? a) && (a <? m + Z.of_nat n) then 1 else 0.
Proof.
  induction n as [|n IH]; intros m.
  - simpl. zcases.
  - rewrite seqZ_cons by lia.
    replace (Z.pred (Z.of_nat (S n))) with (Z.of_nat n) by lia.
    cbn [fmap list_fmap Zsum foldr].
    change (foldr Z.add 0 ?l) with (Zsum l).
    rewrite IH.
    destruct (Z.eq_dec a m) as [->|Hne]; zcases.
Qed.

Lemma Zsum_fmap_ext (f g : Z -> Z) (l : list Z) :
  (forall k, f k = g k) -> Zsum (f <$> l) = Zsum (g <$> l).
Proof.
  intros Hfg. unfold Zsum.
  induction l as [|k l IH]; simpl in *; [reflexivity|].
  f_equal; [apply Hfg | exact IH].
Qed.

Lemma Zsum_fmap_add (f g : Z -> Z) (l : list Z) :
  Zsum ((fun k => f k + g k) <$> l) = Zsum (f <$> l) + Zsum (g <$> l).
Proof.
  unfold Zsum. induction l as [|k l IH]; simpl in *; unfold fmap in *; lia.
Qed.

Lemma Zsum_fmap_zero (l : list Z) : Zsum ((fun _ => 0) <$> l) = 0.
Proof.
  unfold Zsum. induction l as [|k l IH]; simpl in *; unfold fmap in *; lia.
Qed.

Lemma Zsum_counts (x : list Z) (n : nat) :
  Forall (fun v => 0 <= v < Z.of_nat n) x ->
  Zsum ((fun k => Z.of_nat (count_occ Z.eq_dec x k)) <$> seqZ 0 (Z.of_nat n))
  = Z.of_nat (length x).
Proof.
  induction 1 as [|a x Ha Hx IH].
  - apply Zsum_fmap_zero.
  - pose proof (Zsum_indicator a n 0) as Hind.
    replace ((0 <=? a) && (a <? 0 + Z.of_nat n)) with true in Hind by zcases.
    cbn [length]. rewrite Nat2Z.inj_succ, <- IH, <- Z.add_1_l, <- Hind.
    rewrite <- Zsum_fmap_add. apply Zsum_fmap_ext. intros k.
    cbn [count_occ]. destruct (Z.eq_dec a k); [rewrite Nat2Z.inj_succ|]; lia.
Qed.

Lemma foldr_max_bound (x : list Z) :
  0 <= foldr Z.max 0 x /\ Forall (fun v => v <= foldr Z.max 0 x) x.
Proof.
  induction x as [|a x [IH0 IH]]; simpl; [split; [lia|constructor]|].
  split; [lia|]. constructor; [lia|].
  eapply Forall_impl; [exact IH|]. simpl. intros; lia.
Qed.

(** The counts of [bincount] are in-degrees: cell [i] is the number of
    entries equal to [i]; they are not negative and add up to the number of
    entries. *)
Lemma bincount_counts (x cnt : list Z) :
  bincount x = Some cnt ->
  Forall (fun c => 0 <= c) cnt
  /\ Zsum cnt = Z.of_nat (length x)
  /\ (forall i c, cnt !! i = Some c ->
        c = Z.of_nat (count_occ Z.eq_dec x (Z.of_nat i))).
Proof.
  unfold bincount. destruct (forallb _ x) eqn:Hpos; [|discriminate].
  assert (Hx : Forall (fun v => 0 <= v) x).
  { apply Forall_forall. intros v Hv.
    rewrite forallb_forall in Hpos. apply list_elem_of_In in Hv.
    specialize (Hpos v Hv). lia. }
  destruct x as [|a x].
  { intros [= <-]. repeat split; [constructor|].
    intros i c Hi. now rewrite lookup_nil in Hi. }
  set (y := a :: x) in *.
  destruct (foldr_max_bound y) as [HM0 HM].
  set (M := foldr Z.max 0 y) in *.
  intros Hcnt.
  assert (Hc : cnt = (fun k => Z.of_nat (count_occ Z.eq_dec y k))
                       <$> seqZ 0 (M + 1))
    by (injection Hcnt as <-; reflexivity).
  clear Hcnt. subst cnt.
  repeat split.
  - apply Forall_fmap, Forall_forall. intros k _. simpl. lia.
  - replace (M + 1) with (Z.of_nat (Z.to_nat (M + 1))) by lia.
    apply Zsum_counts.
    apply Forall_forall. intros v Hv.
    rewrite Forall_forall in Hx, HM. specialize (Hx v Hv). specialize (HM v Hv).
    lia.
  - intros i c Hi. rewrite list_lookup_fmap in Hi.
    destruct (seqZ 0 (M + 1) !! i) as [k|] eqn:Ek; [|discriminate].
    apply lookup_seqZ in Ek as [-> _]. simpl in Hi. injection Hi as <-.
    reflexivity.
Qed.

Lemma foldr_max_le (x : list Z) (b : Z) :
  0 <= b -> Forall (fun v => v <= b) x -> foldr Z.max 0 x <= b.
Proof. intros Hb. induction 1; simpl; lia. Qed.

Lemma bincount_length (x cnt : list Z) :
  bincount x = Some cnt -> x <> [] ->
  length cnt = Z.to_nat (foldr Z.max 0 x + 1).
Proof.
  unfold bincount. destruct (forallb _ x); [|discriminate].
  destruct x as [|a x]; [congruence|].
  intros [= <-] _. now rewrite length_fmap, length_seqZ.
Qed.

(** What the two index arrays hold when the generator keeps to numpy's
    contract: integers of the closed range [[0, num_neurons]]. *)
Lemma sorted_post_neuron_range `{R : NumpyRandom} (s : MockSystem.t) (w : World) :
  np_draw_in_range R -> 0 <= MockSystem.num_neurons s < 2 ^ 31 ->
  Forall (fun x => 0 <= x <= MockSystem.num_neurons s) (sorted_post_neuron s w).
Proof.
  intros Hrange HN. unfold sorted_post_neuron.
  rewrite merge_sort_Permutation. apply Forall_fmap.
  eapply Forall_impl; [apply np_draws_range; [exact Hrange|lia]|].
  intros x Hx. unfold compose. cbv beta in *.
  rewrite wrap32_small; lia.
Qed.

(** C8 on the code.  The dendrite counts are the in-degrees of the sorted
    postsynaptic index array that construction draws, and the last entry of
    the offset table is the number of synapses.  But the indices are drawn
    from the closed range [[0, num_neurons]]: when a draw is [num_neurons]
    itself, the count array has [num_neurons + 1] cells, one more than
    there are neurons, the counts of the neurons add up to less than the
    number of synapses, and so does the table entry that ends the block of
    the last neuron: the synapses drawn with the index [num_neurons] are
    counted for no neuron. *)
Theorem dendrite_counts_miss_synapses `{R : NumpyRandom}
    (s : MockSystem.t) (w w' : World) (g : MockSystem.gpu) :
  MockSystem.init_gpu s w = Some (g, w') ->
  np_draw_in_range R ->
  MockSystem.num_neurons s < 2 ^ 31 -> MockSystem.num_synapses s < 2 ^ 31 ->
  let N := Z.to_nat (MockSystem.num_neurons s) in
  let post := sorted_post_neuron s w in
  let cnt := MorrisLecar.num_dendrite (MockSystem.neurons g) in
  let off := MorrisLecar.cum_num_dendrite (MockSystem.neurons g) in
  MockSystem.num_neurons s ∈ post ->
  Z.of_nat (length post) = MockSystem.num_synapses s
  /\ (forall i c, cnt !! i = Some c ->
        c = Z.of_nat (count_occ Z.eq_dec post (Z.of_nat i)))
  /\ length cnt = S N
  /\ Zsum (take N cnt) < MockSystem.num_synapses s
  /\ off !! N = Some (Zsum (take N cnt))
  /\ last off = Some (MockSystem.num_synapses s).
Proof.
  intros Hg Hrange HfitN Hfit N post cnt off Hin.
  destruct (init_gpu_inv s w w' g Hg)
    as (rng1 & V & D & S0 & k & _ & HN & Hsyn & Hbin & Hrng & _ & _ & _ & _
        & _ & _ & _ & _ & _ & _ & _ & _ & Hcnt & Hoff & _).
  subst rng1. fold (sorted_post_neuron s w) in Hbin. fold post in Hbin.
  subst cnt off. rewrite Hcnt, Hoff.
  set (cnt := MockSystem.num_dendrites g) in *.
  assert (Hlen : Z.of_nat (length post) = MockSystem.num_synapses s).
  { subst post. unfold sorted_post_neuron.
    rewrite (Permutation_length (merge_sort_Permutation _ _)).
    rewrite length_fmap, np_draws_length. lia. }
  destruct (bincount_counts post cnt Hbin) as (Hpos & Hsum & Hdeg).
  rewrite Hlen in Hsum.
  pose proof (sorted_post_neuron_range s w Hrange ltac:(lia)) as Hpost.
  fold post in Hpost.
  assert (Hmax : foldr Z.max 0 post = MockSystem.num_neurons s).
  { apply Z.le_antisymm.
    - apply foldr_max_le; [lia|].
      eapply Forall_impl; [exact Hpost|]. simpl. intros; lia.
    - destruct (foldr_max_bound post) as [_ HM].
      rewrite Forall_forall in HM. now apply HM. }
  assert (Hl : length cnt = S N).
  { rewrite (bincount_length post cnt Hbin), Hmax; [subst N; lia|].
    intros Hnil. rewrite Hnil in Hin. now apply not_elem_of_nil in Hin. }
  assert (HcN : exists c, cnt !! N = Some c /\ 1 <= c) .
  { destruct (lookup_lt_is_Some_2 cnt N) as [c Hc]; [lia|].
    exists c. split; [exact Hc|].
    rewrite (Hdeg N c Hc). subst N. rewrite Z2Nat.id by lia.
    apply list_elem_of_In in Hin.
    apply (count_occ_In Z.eq_dec) in Hin. lia. }
  destruct HcN as (c & Hc & Hc1).
  assert (Hsplit : Zsum cnt = Zsum (take N cnt) + c).
  { rewrite <- (take_drop N cnt) at 1. rewrite Zsum_app.
    rewrite (drop_S _ _ _ Hc), drop_ge by lia. simpl. lia. }
  repeat split.
  - exact Hlen.
  - exact Hdeg.
  - exact Hl.
  - lia.
  - apply cumsum32_prefix; [exact Hpos|lia|lia].
  - destruct (cumsum32_table cnt 0 ltac:(lia) Hpos ltac:(lia))
      as (_ & _ & Hlast).
    rewrite Hlast, Hsum. reflexivity.
Qed.

Lemma dendrite_counts_miss_synapses_witness :
  exists s w g w',
    Demo.made 0 = Some (s, w)
    /\ MockSystem.init_gpu s w = Some (g, w')
    /\ MockSystem.num_neurons s = 15 /\ MockSystem.num_synapses s = 15
    /\ length (MorrisLecar.num_dendrite (MockSystem.neurons g)) = 16%nat
    /\ Zsum (take 15 (MorrisLecar.num_dendrite (MockSystem.neurons g))) < 15.
Proof.
  eexists _, _, _, _.
  split; [vm_compute; reflexivity|].
  match goal with
  | |- ?A /\ _ => assert (Hg : A) by (vm_compute; reflexivity)
  end.
  split; [exact Hg|]. split; [reflexivity|]. split; [reflexivity|].
  destruct (dendrite_counts_miss_synapses _ _ _ _ Hg countdown_in_range
              ltac:(simpl; lia) ltac:(simpl; lia)
              ltac:(apply list_elem_of_In; vm_compute; tauto))
    as (_ & _ & Hl & Hlt & _).
  split; [exact Hl | exact Hlt].
Defined.

(** ** One tick *)

(** A tick leaves the constants of the construction as they are. *)
Lemma run_step_static (K : Kernels) (s : MockSystem.gpu)
    (in_non proj : list double) :
  let s' := (MockSystem.run_step K s in_non proj).1.1 in
  MockSystem.self s' = MockSystem.self s
  /\ MorrisLecar.steps (MockSystem.neurons s')
     = MorrisLecar.steps (MockSystem.neurons s)
  /\ MorrisLecar.ddt (MockSystem.neurons s')
     = MorrisLecar.ddt (MockSystem.neurons s)
  /\ MorrisLecar.dt (MockSystem.neurons s')
     = MorrisLecar.dt (MockSystem.neurons s)
  /\ MorrisLecar.num_input (MockSystem.neurons s')
     = MorrisLecar.num_input (MockSystem.neurons s).
Proof. open_tick; repeat split. Qed.

(** The cursor stays inside the buffer. *)
Lemma run_step_cursor (K : Kernels) (s : MockSystem.gpu)
    (in_non proj : list double) :
  cursor_inside (MockSystem.buffer s) ->
  cursor_inside (MockSystem.buffer (MockSystem.run_step K s in_non proj).1.1).
Proof.
  intros [Hlen Hcur]. unfold cursor_inside. open_tick;
    rewrite ?length_insert; (split; [exact Hlen|]);
    destruct (Z.leb_spec (CircularArray.delay_steps (MockSystem.buffer s))
                (CircularArray.current (MockSystem.buffer s) + 1)); lia.
Qed.

Lemma run_static (K : Kernels) (I_ext : list (list double)) :
  forall (s : MockSystem.gpu) (out : list (list double)),
    let s' := (MockSystem.run K s I_ext out).1 in
    MockSystem.self s' = MockSystem.self s
    /\ MorrisLecar.steps (MockSystem.neurons s')
       = MorrisLecar.steps (MockSystem.neurons s)
    /\ MorrisLecar.ddt (MockSystem.neurons s')
       = MorrisLecar.ddt (MockSystem.neurons s)
    /\ MorrisLecar.dt (MockSystem.neurons s')
       = MorrisLecar.dt (MockSystem.neurons s)
    /\ MorrisLecar.num_input (MockSystem.neurons s')
       = MorrisLecar.num_input (MockSystem.neurons s).
Proof.
  induction I_ext as [|in_non I_ext IH]; intros s out; [now simpl|].
  destruct out as [|proj out]; [now simpl|].
  cbn [MockSystem.run].
  pose proof (run_step_static K s in_non proj) as Hstep.
  destruct (MockSystem.run_step K s in_non proj) as [[s1 v] log].
  specialize (IH s1 out).
  destruct (MockSystem.run K s1 I_ext out) as [s2 vs].
  cbn [fst snd] in *.
  destruct Hstep as (? & ? & ? & ? & ?), IH as (? & ? & ? & ? & ?).
  repeat split; congruence.
Qed.

Lemma run_cursor (K : Kernels) (I_ext : list (list double)) :
  forall (s : MockSystem.gpu) (out : list (list double)),
    cursor_inside (MockSystem.buffer s) ->
    cursor_inside (MockSystem.buffer (MockSystem.run K s I_ext out).1).
Proof.
  induction I_ext as [|in_non I_ext IH]; intros s out Hs; [exact Hs|].
  destruct out as [|proj out]; [exact Hs|].
  cbn [MockSystem.run].
  pose proof (run_step_cursor K s in_non proj Hs) as Hstep.
  destruct (MockSystem.run_step K s in_non proj) as [[s1 v] log].
  specialize (IH s1 out Hstep).
  destruct (MockSystem.run K s1 I_ext out) as [s2 vs]. exact IH.
Qed.

(** With a depth of at least one row, the cursor addresses a row of the
    buffer at every tick of every run. *)
Lemma cursor_inside_every_tick `{R : NumpyRandom}
    (s : MockSystem.t) (w w' : World) (g : MockSystem.gpu)
    (K : Kernels) (I_ext out : list (list double)) :
  MockSystem.init_gpu s w = Some (g, w') ->
  1 <= MockSystem.delay_steps g ->
  cursor_inside (MockSystem.buffer (MockSystem.run K g I_ext out).1).
Proof.
  intros Hg HD. apply run_cursor.
  destruct (init_gpu_inv s w w' g Hg)
    as (rng1 & V & D & S0 & k & _ & _ & _ & _ & _ & _ & HD' & _ & Hbuf & _).
  destruct (init_shape _ _ _ _ _ _ Hbuf) as [Hrows _].
  apply init_Some in Hbuf as (_ & _ & HDb & Hcur & _).
  unfold cursor_inside. rewrite Hrows, HDb, Hcur. lia.
Qed.

(** C1. In every tick the device operations are issued in one order:
    reset and injection of the current, aggregation, integration, synapse
    update, output, cursor advance.  When the integration kernel records the
    voltages it computes, the row at the cursor holds them when the synapse
    kernel is launched, that kernel is handed the buffer after this write
    with the cursor not yet advanced, the output is taken from the new
    voltages, and the cursor advances once, after all of that. *)
Theorem run_step_phase_order (K : Kernels) (s : MockSystem.gpu)
    (in_non proj : list double) :
  euler_records_voltage K ->
  0 <= CircularArray.current (MockSystem.buffer s)
    < Z.of_nat (length (CircularArray.buffer (MockSystem.buffer s))) ->
  let nr := MockSystem.neurons s in
  let syn := MockSystem.synapses s in
  let buf := MockSystem.buffer s in
  let cur := CircularArray.current buf in
  let I0 := replicate (length (MorrisLecar.I_pre nr)) Py.zero in
  let I1 := memcpy (outside K BehindInput) I0 in_non
                   (Z.to_nat (MorrisLecar.num_input nr)) in
  let I2 := get_input K (MorrisLecar.num_neurons nr)
              (VectorSynapse.conductance syn) (MorrisLecar.cum_num_dendrite nr)
              (MorrisLecar.num_dendrite nr) I1 (MorrisLecar.V nr)
              (VectorSynapse.V_rev syn) in
  let V' := (hhn_euler_multiple K (MorrisLecar.update nr) (MorrisLecar.V nr)
               (MorrisLecar.n nr)
               (default [] (CircularArray.buffer buf !! Z.to_nat cur))
               (MorrisLecar.num_neurons nr) I2
               (MorrisLecar.ddt nr * 1000)%float (MorrisLecar.steps nr)).1.1 in
  let rows' := <[Z.to_nat cur := V']> (CircularArray.buffer buf) in
  let g' := (update_terminal_synapse K (VectorSynapse.num_synapse syn) rows'
               cur (CircularArray.delay_steps buf)
               (VectorSynapse.pre_neuron syn) (VectorSynapse.conductance syn)
               (VectorSynapse.threshold syn) (VectorSynapse.slope syn)
               (VectorSynapse.power syn) (VectorSynapse.saturation syn)
               (VectorSynapse.delay syn) (VectorSynapse.mem_tmp syn)).1 in
  let out := memcpy (outside K BehindV) proj V' (length proj) in
  let cur' := if CircularArray.delay_steps buf <=? cur + 1 then 0
              else cur + 1 in
  let r := MockSystem.run_step K s in_non proj in
  r.2 = [Fill I0; CopyInput (MorrisLecar.num_input nr) I1; GetInput I1;
         Euler cur V' V'; TerminalSynapse cur rows'; CopyOut out;
         Step cur cur']
  /\ rows' !! Z.to_nat cur = Some V'
  /\ r.1.2 = out
  /\ MorrisLecar.I_pre (MockSystem.neurons r.1.1) = I2
  /\ MorrisLecar.V (MockSystem.neurons r.1.1) = V'
  /\ CircularArray.buffer (MockSystem.buffer r.1.1) = rows'
  /\ CircularArray.current (MockSystem.buffer r.1.1) = cur'
  /\ VectorSynapse.conductance (MockSystem.synapses r.1.1) = g'.
Proof.
  intros Hrec Hcur nr syn buf cur I0 I1 I2 V' rows' g' out cur' r.
  assert (Hrow : rows' !! Z.to_nat cur = Some V').
  { subst rows'. apply list_lookup_insert_eq. subst cur buf. lia. }
  destruct (lookup_lt_is_Some_2 (CircularArray.buffer buf) (Z.to_nat cur))
    as [row0 Hrow0]; [subst cur buf; lia|].
  subst r V' rows' g' out cur' I2 I1 I0 cur buf syn nr.
  revert Hrow. rewrite Hrow0. change (default [] (Some row0)) with row0.
  unfold MockSystem.run_step, MorrisLecar.eval.
  replace (0 <=? CircularArray.current (MockSystem.buffer s)) with true
    by (symmetry; apply Z.leb_le; lia).
  rewrite Hrow0. open_tick.
  pose proof (Hrec (MorrisLecar.update (MockSystem.neurons s))
                (MorrisLecar.V (MockSystem.neurons s))
                (MorrisLecar.n (MockSystem.neurons s))) as Hrec'.
  match type of Eeuler with
  | hhn_euler_multiple _ _ _ _ ?row ?N ?I ?h ?S = _ =>
      specialize (Hrec' row N I h S); rewrite Eeuler in Hrec'
  end.
  cbn [fst snd] in Hrec'. subst.
  intros Hrow. repeat split; try reflexivity; try exact Hrow.
  cbn [CircularArray.buffer CircularArray.current CircularArray.delay_steps
       fst snd] in *.
  congruence.
Qed.

Lemma run_step_phase_order_witness :
  exists g w,
    Demo.small 0 = Some (g, w)
    /\ exists V' rows' out,
         (MockSystem.run_step Demo.kernels g [] (replicate 15 Py.zero)).2
         = [Fill (replicate 15 Py.zero); CopyInput 0 (replicate 15 Py.zero);
            GetInput (replicate 15 Py.zero); Euler 0 V' V';
            TerminalSynapse 0 rows'; CopyOut out; Step 0 1]
         /\ rows' !! O = Some V'.
Proof.
  eexists _, _. split; [vm_compute; reflexivity|].
  eexists _, _, _.
  match goal with
  | |- (MockSystem.run_step ?K ?g ?i ?p).2 = _ /\ _ =>
      pose proof (run_step_phase_order K g i p
                    ltac:(intros c V n row N I h S; reflexivity)
                    ltac:(simpl; lia)) as (Hlog & Hrow & _)
  end.
  split; [exact Hlog | exact Hrow].
Defined.


(** ** The current accumulator *)

(** A copy that stays inside its source takes nothing from behind it. *)
Lemma memcpy_within (behind : nat -> double) (dst src : list double)
    (count : nat) :
  (count <= length src)%nat ->
  memcpy behind dst src count = take count src ++ drop count dst.
Proof.
  intros Hc. unfold memcpy. replace (count - length src)%nat with O by lia.
  cbn [seq fmap list_fmap]. now rewrite app_nil_r.
Qed.

(** C9. Every tick starts from an all-zero accumulator, the injection
    writes its first [num_input] cells only, and the accumulator handed to
    the aggregation kernel is [num_input] injected cells followed by zeros:
    nothing of the previous tick's accumulator is left in it. *)
Theorem I_pre_reset_each_tick (K : Kernels) (s : MockSystem.gpu)
    (in_non proj : list double) :
  let nr := MockSystem.neurons s in
  let len := length (MorrisLecar.I_pre nr) in
  let ni := Z.to_nat (MorrisLecar.num_input nr) in
  (ni <= length in_non)%nat ->
  exists I1 rest,
    (MockSystem.run_step K s in_non proj).2
    = Fill (replicate len Py.zero)
      :: CopyInput (MorrisLecar.num_input nr) I1 :: GetInput I1 :: rest
    /\ I1 = take ni in_non ++ replicate (len - ni) Py.zero
    /\ (forall i, (i < ni)%nat -> I1 !! i = in_non !! i)
    /\ (forall i, (ni <= i < len)%nat -> I1 !! i = Some Py.zero).
Proof.
  intros nr len ni Hin. subst nr.
  exists (take ni in_non ++ replicate (len - ni) Py.zero).
  assert (HI1 : memcpy (outside K BehindInput) (replicate len Py.zero)
                  in_non ni
                = take ni in_non ++ replicate (len - ni) Py.zero)
    by (rewrite memcpy_within by exact Hin; now rewrite drop_replicate).
  assert (Hlow : forall i, (i < ni)%nat ->
            (take ni in_non ++ replicate (len - ni) Py.zero) !! i
            = in_non !! i).
  { intros i Hi. rewrite lookup_app_l by (rewrite length_take; lia).
    now apply lookup_take_lt. }
  assert (Hhigh : forall i, (ni <= i < len)%nat ->
            (take ni in_non ++ replicate (len - ni) Py.zero) !! i
            = Some Py.zero).
  { intros i Hi. rewrite lookup_app_r by (rewrite length_take; lia).
    rewrite length_take. apply lookup_replicate_2. lia. }
  open_tick; fold len ni; rewrite HI1; eexists;
    (split; [reflexivity|]); (split; [reflexivity|]); split; assumption.
Qed.

Lemma I_pre_reset_each_tick_witness :
  exists g w,
    Demo.driven 0 = Some (g, w)
    /\ exists I1 rest,
         (MockSystem.run_step Demo.kernels g [7; 8; 9]%float []).2
         = Fill (replicate 15 Py.zero) :: CopyInput 2 I1 :: GetInput I1 :: rest
         /\ I1 = [7; 8]%float ++ replicate 13 Py.zero.
Proof.
  eexists _, _. split; [vm_compute; reflexivity|].
  match goal with
  | |- exists I1 rest, (MockSystem.run_step ?K ?g ?i ?p).2 = _ /\ _ =>
      destruct (I_pre_reset_each_tick K g i p ltac:(simpl; lia))
        as (I1 & rest & Hlog & HI1 & _)
  end.
  exists I1, rest. split; [exact Hlog | exact HI1].
Defined.

(** Without driven neurons the tick does not look at the external current. *)
Lemma run_step_ignores_input (K : Kernels) (s : MockSystem.gpu)
    (in1 in2 proj : list double) :
  MorrisLecar.num_input (MockSystem.neurons s) = 0 ->
  MockSystem.run_step K s in1 proj = MockSystem.run_step K s in2 proj.
Proof.
  intros Hni. unfold MockSystem.run_step, MorrisLecar.update_I_pre_input,
    MorrisLecar.fill_I_pre, MorrisLecar.with_state.
  cbn [MorrisLecar.num_input MorrisLecar.I_pre MorrisLecar.V MorrisLecar.n].
  rewrite Hni. reflexivity.
Qed.

Lemma run_ignores_input (K : Kernels) (I1 : list (list double)) :
  forall (s : MockSystem.gpu) (I2 out : list (list double)),
    MorrisLecar.num_input (MockSystem.neurons s) = 0 ->
    length I1 = length I2 ->
    MockSystem.run K s I1 out = MockSystem.run K s I2 out.
Proof.
  induction I1 as [|in1 I1 IH]; intros s [|in2 I2] out Hni Hlen;
    try discriminate; [reflexivity|].
  destruct out as [|proj out]; [reflexivity|].
  cbn [MockSystem.run].
  rewrite (run_step_ignores_input K s in1 in2 proj Hni).
  pose proof (run_step_static K s in2 proj) as (_ & _ & _ & _ & Hni').
  destruct (MockSystem.run_step K s in2 proj) as [[s1 v] log].
  cbn [fst snd] in Hni'.
  rewrite (IH s1 I2 out); [reflexivity|congruence|].
  simpl in Hlen. congruence.
Qed.

(** C10. The number of driven neurons is the entry of the type boundary
    table at the floor quotient [num_in_non / num_neurons]; with fewer input
    channels than neurons that entry is the first one, 0: the injection
    copies no cell, the accumulator handed to the aggregation is all zeros,
    and the whole run is the same whatever the external currents are. *)
Theorem fewer_channels_no_input `{R : NumpyRandom}
    (num_neurons_per_type : Z) (avr_synapses_per_neuron dt : double)
    (num_in_non num_in_spike num_proj_non num_proj_spike device : Z)
    (w w1 w2 : World) (s : MockSystem.t) (g : MockSystem.gpu) :
  MockSystem.init num_neurons_per_type avr_synapses_per_neuron dt num_in_non
    num_in_spike num_proj_non num_proj_spike device w = Some (s, w1) ->
  MockSystem.init_gpu s w1 = Some (g, w2) ->
  Py.index (MockSystem.start_idx s) (num_in_non / MockSystem.num_neurons s)
  = Some (MorrisLecar.num_input (MockSystem.neurons g))
  /\ (0 <= num_in_non < MockSystem.num_neurons s ->
      MorrisLecar.num_input (MockSystem.neurons g) = 0
      /\ (forall K in_non proj,
            exists rest,
              (MockSystem.run_step K g in_non proj).2
              = Fill (replicate (Z.to_nat (MockSystem.num_neurons s)) Py.zero)
                :: CopyInput 0
                     (replicate (Z.to_nat (MockSystem.num_neurons s)) Py.zero)
                :: GetInput
                     (replicate (Z.to_nat (MockSystem.num_neurons s)) Py.zero)
                :: rest)
      /\ (forall K I1 I2 out,
            length I1 = length I2 ->
            MockSystem.run K g I1 out = MockSystem.run K g I2 out)).
Proof.
  intros Hs Hg.
  destruct (init_gpu_inv s w1 w2 g Hg)
    as (rng1 & V & D & S0 & k & _ & HN & _ & _ & _ & _ & _ & _ & _ & _
        & Hk & Hidx & _ & _ & _ & _ & HI & _).
  unfold MockSystem.init in Hs.
  destruct (Py.int _) as [nsyn|]; [|discriminate].
  injection Hs as <- <-. cbn [MockSystem.num_in_non MockSystem.num_neurons
    MockSystem.start_idx] in *.
  unfold Py.floordiv in Hk.
  destruct (num_neurons_per_type * 15 =? 0) eqn:E0; [discriminate|].
  injection Hk as <-.
  split; [exact Hidx|].
  intros Hin.
  assert (Hni : MorrisLecar.num_input (MockSystem.neurons g) = 0).
  { rewrite (Z.div_small num_in_non) in Hidx by lia.
    unfold Py.index in Hidx. cbn [length Z.of_nat] in Hidx.
    change ((0 <=? 0) && (0 <? Z.pos (Pos.of_succ_nat 14))) with true in Hidx.
    cbn [lookup list_lookup Z.to_nat Z.of_nat Z.add] in Hidx.
    rewrite Z.mul_0_r in Hidx. injection Hidx as <-. reflexivity. }
  split; [exact Hni|split].
  - intros K in_non proj. open_tick; rewrite Hni, HI;
      rewrite length_replicate; eexists; reflexivity.
  - intros K I1 I2 out Hlen. now apply run_ignores_input.
Qed.

Lemma fewer_channels_no_input_witness :
  exists s w1 g w2,
    MockSystem.init 1 1 1e-4 10 0 15 0 0 (Demo.world 0) = Some (s, w1)
    /\ MockSystem.init_gpu s w1 = Some (g, w2)
    /\ 0 <= 10 < MockSystem.num_neurons s
    /\ MorrisLecar.num_input (MockSystem.neurons g) = 0
    /\ MockSystem.run Demo.kernels g [replicate 10 1%float] [replicate 15 0%float]
       = MockSystem.run Demo.kernels g [replicate 10 2%float] [replicate 15 0%float].
Proof.
  eexists _, _, _, _.
  match goal with
  | |- ?A /\ _ => assert (Hs : A) by (vm_compute; reflexivity)
  end.
  split; [exact Hs|].
  match goal with
  | |- ?A /\ _ => assert (Hg : A) by (vm_compute; reflexivity)
  end.
  split; [exact Hg|].
  assert (Hin : 0 <= 10 < 15) by lia.
  split; [exact Hin|].
  destruct (fewer_channels_no_input _ _ _ _ _ _ _ _ _ _ _ _ _ Hs Hg)
    as (_ & Hno).
  destruct (Hno Hin) as (Hni & _ & Hrun).
  split; [exact Hni|]. apply Hrun. reflexivity.
Defined.

(** ** The micro-step *)

(** C6. The micro-step count is [max(1, round(dt / 1e-5))] and the
    micro-step size [dt / S]; construction computes them from [dt], and no
    number of ticks changes them. *)
Theorem micro_steps_fixed `{R : NumpyRandom}
    (s : MockSystem.t) (w w' : World) (g : MockSystem.gpu) :
  MockSystem.init_gpu s w = Some (g, w') ->
  let nr := MockSystem.neurons g in
  Spec.micro_steps (MockSystem.dt s) = Some (MorrisLecar.steps nr)
  /\ MorrisLecar.ddt nr
     = Spec.micro_size (MockSystem.dt s) (MorrisLecar.steps nr)
  /\ 1 <= MorrisLecar.steps nr
  /\ forall K I_ext out,
       let nr' := MockSystem.neurons (MockSystem.run K g I_ext out).1 in
       MorrisLecar.steps nr' = MorrisLecar.steps nr
       /\ MorrisLecar.ddt nr' = MorrisLecar.ddt nr
       /\ MorrisLecar.dt nr' = MockSystem.dt s.
Proof.
  intros Hg nr.
  destruct (init_gpu_inv s w w' g Hg)
    as (rng1 & V & D & S0 & k & _ & _ & _ & _ & _ & _ & _ & _ & _ & HS
        & _ & _ & Hsteps & Hddt & Hdt & _).
  subst nr. unfold Spec.micro_steps, Spec.micro_size.
  rewrite HS, Hsteps, Hddt. simpl. rewrite (Z.max_comm 1 S0).
  repeat split; try lia.
  - destruct (run_static K I_ext g out) as (_ & H1 & _). now rewrite H1.
  - destruct (run_static K I_ext g out) as (_ & _ & H2 & _).
    now rewrite H2.
  - destruct (run_static K I_ext g out) as (_ & _ & _ & H3 & _).
    now rewrite H3.
Qed.

Lemma micro_steps_fixed_witness :
  exists s w g w',
    Demo.made 0 = Some (s, w)
    /\ MockSystem.init_gpu s w = Some (g, w')
    /\ MorrisLecar.steps (MockSystem.neurons g) = 10
    /\ MorrisLecar.steps
         (MockSystem.neurons
            (MockSystem.run Demo.kernels g [[]; []; []]
               [replicate 15 0%float; replicate 15 0%float;
                replicate 15 0%float]).1) = 10.
Proof.
  eexists _, _, _, _.
  split; [vm_compute; reflexivity|].
  match goal with
  | |- ?A /\ _ => assert (Hg : A) by (vm_compute; reflexivity)
  end.
  split; [exact Hg|].
  destruct (micro_steps_fixed _ _ _ _ Hg) as (_ & _ & _ & Hrun).
  match goal with
  | |- ?A /\ _ => assert (H10 : A) by (vm_compute; reflexivity)
  end.
  split; [exact H10|].
  destruct (Hrun Demo.kernels [[]; []; []]
              [replicate 15 0%float; replicate 15 0%float;
               replicate 15 0%float]) as (Hsame & _).
  rewrite Hsame. exact H10.
Defined.

(** ** Delays in ticks *)

(** Rounding to even is rounding: the integer is within a half of the
    number. *)
Lemma mag_round_even_nearest (m : positive) (e : Z) :
  e < 0 ->
  2 * Z.abs (Py.mag_round_even m e * 2 ^ (- e) - Z.pos m) <= 2 ^ (- e).
Proof.
  intros He. unfold Py.mag_round_even.
  destruct (Z.leb_spec 0 e) as [|_]; [lia|].
  assert (Hp : 0 < 2 ^ (- e)) by (apply Z.pow_pos_nonneg; lia).
  pose proof (Z.div_mod (Z.pos m) (2 ^ (- e)) ltac:(lia)) as Hdm.
  pose proof (Z.mod_pos_bound (Z.pos m) (2 ^ (- e)) Hp) as Hr.
  set (P := 2 ^ (- e)) in *.
  set (q := Z.pos m / P) in *. set (r := Z.pos m mod P) in *.
  destruct (Z.compare_spec (2 * r) P); [destruct (Z.even q)| |]; nia.
Qed.

(** [np.round(x).astype(np.int32)] is a nearest integer of [x] whenever
    [x] has one inside the int32 range. *)
Lemma round_astype_nearest (x : double) (z : Z) :
  Spec.nearest x z -> - 2 ^ 31 < z < 2 ^ 31 - 1 ->
  Spec.nearest x (Py.round_astype_int32 x).
Proof.
  unfold Spec.nearest, Py.round_astype_int32.
  destruct (FloatOps.Prim2SF x) as [s|s| |s m e]; try tauto.
  intros Hz Hfit.
  assert (Hin : - 2 ^ 31 <= Py.signed s (Py.mag_round_even m e) < 2 ^ 31
                /\ (if 0 <=? e
                    then Py.signed s (Py.mag_round_even m e)
                         = Py.signed s (Z.pos m * 2 ^ e)
                    else 2 * Z.abs (Py.signed s (Py.mag_round_even m e)
                                    * 2 ^ (- e) - Py.signed s (Z.pos m))
                         <= 2 ^ (- e))).
  { destruct (Z.leb_spec 0 e) as [He|He].
    - assert (Heq : Py.mag_round_even m e = Z.pos m * 2 ^ e).
      { unfold Py.mag_round_even. destruct (Z.leb_spec 0 e); [reflexivity|lia]. }
      rewrite Heq. split; [lia|reflexivity].
    - pose proof (mag_round_even_nearest m e He) as Hn.
      assert (Hp : 0 < 2 ^ (- e)) by (apply Z.pow_pos_nonneg; lia).
      set (P := 2 ^ (- e)) in *. set (ze := Py.mag_round_even m e) in *.
      destruct s; cbn [Py.signed] in *; split; nia. }
  destruct Hin as [Hrange Hnear].
  replace ((- 2 ^ 31 <=? Py.signed s (Py.mag_round_even m e))
           && (Py.signed s (Py.mag_round_even m e) <? 2 ^ 31)) with true.
  - exact Hnear.
  - symmetry. apply andb_true_iff. split; [apply Z.leb_le|apply Z.ltb_lt]; lia.
Qed.

(** C3. The tick delay of a synapse is [round(delay / dt)] of its physical
    delay, the delay value [syn_delay] (in milliseconds) times [1e-3], and
    of the tick [dt], both in seconds: the cell [j] of the delay array that
    [VectorSynapse] keeps is the specification's formula on these two
    numbers, whatever the other arguments are; it is an integer nearest to
    the quotient whenever the quotient has one inside the int32 range.  In
    a constructed network every synapse has the delay value 1 ms, and so
    the same tick delay. *)
Theorem tick_delay_per_synapse `{R : NumpyRandom}
    (num_synapse : Z) (pre_neuron : list Z)
    (syn_thres syn_slope syn_power syn_saturation syn_delay V_rev : list double)
    (dt uninit : double) (j : nat) (delay_ms : double) :
  syn_delay !! j = Some delay_ms ->
  let physical := (delay_ms * 1e-3)%float in
  let syn := VectorSynapse.init num_synapse pre_neuron syn_thres syn_slope
               syn_power syn_saturation syn_delay V_rev dt uninit in
  VectorSynapse.delay syn !! j = Some (Spec.tick_delay physical dt)
  /\ (forall z, Spec.nearest (physical / dt) z -> - 2 ^ 31 < z < 2 ^ 31 - 1 ->
        Spec.nearest (physical / dt) (Spec.tick_delay physical dt))
  /\ (forall (s : MockSystem.t) (w w' : World) (g : MockSystem.gpu),
        MockSystem.init_gpu s w = Some (g, w') ->
        VectorSynapse.delay (MockSystem.synapses g)
        = replicate (Z.to_nat (MockSystem.num_synapses s))
            (Spec.tick_delay (Py.one * 1e-3) (MockSystem.dt s))).
Proof.
  intros Hj physical syn. split; [|split].
  - subst syn. cbn [VectorSynapse.init VectorSynapse.delay].
    rewrite list_lookup_fmap, Hj. reflexivity.
  - intros z Hz Hfit. unfold Spec.tick_delay.
    now apply (round_astype_nearest _ z).
  - intros s w w' g Hg.
    destruct (init_gpu_inv s w w' g Hg)
      as (rng1 & V & D & S0 & k & _ & _ & _ & _ & _ & _ & _ & _ & _ & _ & _
          & _ & _ & _ & _ & _ & _ & _ & _ & _ & Hdelay).
    rewrite Hdelay, fmap_replicate. reflexivity.
Qed.

Lemma tick_delay_per_synapse_witness :
  VectorSynapse.delay
    (VectorSynapse.init 2 [0; 1] [-0.5; -0.5]%float [-0.5; -0.5]%float
       [1; 1]%float [0.1; 0.1]%float [1; 2.5]%float [-0.4; -0.4]%float
       1e-4 PrimFloat.nan) !! 1%nat = Some 25
  /\ Spec.nearest (2.5 * 1e-3 / 1e-4)%float 25.
Proof.
  destruct (tick_delay_per_synapse (R := Demo.countdown) 2 [0; 1]
              [-0.5; -0.5]%float [-0.5; -0.5]%float [1; 1]%float
              [0.1; 0.1]%float [1; 2.5]%float [-0.4; -0.4]%float 1e-4
              PrimFloat.nan 1 2.5%float eq_refl) as (Hd & Hn & _).
  split; [exact Hd|].
  apply (Hn 25); [vm_compute; discriminate | lia].
Defined.

(** C4 on the code: in the network of [Demo.small] every synapse has a
    delay of 10 ticks and the buffer has 10 rows, so no synapse has a delay
    below the depth; the read of such a synapse addresses the row at the
    cursor itself. *)
Theorem max_delay_equals_depth :
  exists g w,
    Demo.small 0 = Some (g, w)
    /\ MockSystem.delay_steps g = 10
    /\ CircularArray.delay_steps (MockSystem.buffer g) = 10
    /\ length (CircularArray.buffer (MockSystem.buffer g)) = 10%nat
    /\ VectorSynapse.delay (MockSystem.synapses g) = replicate 15 10
    /\ (forall d, d ∈ VectorSynapse.delay (MockSystem.synapses g) ->
          ~ d < CircularArray.delay_steps (MockSystem.buffer g))
    /\ (forall c, (c - 10) mod CircularArray.delay_steps (MockSystem.buffer g)
                  = c mod 10).
Proof.
  eexists _, _. split; [vm_compute; reflexivity|].
  cbn [MockSystem.delay_steps MockSystem.buffer MockSystem.synapses
       CircularArray.delay_steps CircularArray.buffer VectorSynapse.delay].
  repeat split.
  - intros d Hd. apply list_elem_of_In in Hd. simpl in Hd.
    repeat (destruct Hd as [<-|Hd]; [lia|]). destruct Hd.
  - intros c. replace (c - 10) with (c + (-1) * 10) by lia.
    apply Z.mod_add. lia.
Qed.

(** ** Construction does not validate *)

Lemma bincount_is_Some (x : list Z) :
  Forall (fun v => 0 <= v) x -> is_Some (bincount x).
Proof.
  intros Hx. unfold bincount.
  replace (forallb (fun v => 0 <=? v) x) with true.
  - destruct x; eexists; reflexivity.
  - symmetry. apply forallb_forall. intros v Hv.
    rewrite Forall_forall in Hx. apply Z.leb_le, Hx, list_elem_of_In, Hv.
Qed.

Lemma Py_index_is_Some {A} (a : list A) (k : Z) :
  - Z.of_nat (length a) <= k < Z.of_nat (length a) -> is_Some (Py.index a k).
Proof.
  intros Hk. unfold Py.index.
  destruct ((0 <=? k) && (k <? Z.of_nat (length a))) eqn:E1.
  - apply lookup_lt_is_Some_2. apply andb_true_iff in E1 as [E1 E2].
    apply Z.leb_le in E1. apply Z.ltb_lt in E2. lia.
  - replace ((- Z.of_nat (length a) <=? k) && (k <? 0)) with true.
    + apply lookup_lt_is_Some_2. lia.
    + symmetry. apply andb_true_iff. split; [apply Z.leb_le; lia|].
      apply Z.ltb_lt. apply andb_false_iff in E1 as [E1|E1].
      * apply Z.leb_gt in E1. lia.
      * apply Z.ltb_ge in E1. lia.
Qed.

(** Construction checks no index: with at least one neuron per type and
    one synapse, a positive buffer depth [round(1e-3 / dt)], a computable
    micro-step count and a boundary table entry for
    [num_in_non / num_neurons], it produces the simulation object, and the
    presynaptic indices of that object are the integers drawn from the
    closed range [[0, num_neurons]], as drawn. *)
Lemma construction_checks_no_index `{R : NumpyRandom}
    (num_neurons_per_type : Z) (avr_synapses_per_neuron dt : double)
    (num_in_non num_in_spike num_proj_non num_proj_spike device : Z)
    (w w1 : World) (s : MockSystem.t) (D S0 : Z) :
  np_draw_in_range R ->
  MockSystem.init num_neurons_per_type avr_synapses_per_neuron dt num_in_non
    num_in_spike num_proj_non num_proj_spike device w = Some (s, w1) ->
  1 <= num_neurons_per_type -> num_neurons_per_type * 15 < 2 ^ 31 ->
  1 <= MockSystem.num_synapses s ->
  Py.int_round (1e-3 / dt)%float = Some D -> 1 <= D ->
  Py.int_round (dt / 1e-5)%float = Some S0 ->
  -15 <= num_in_non / (num_neurons_per_type * 15) < 15 ->
  exists g w2,
    MockSystem.init_gpu s w1 = Some (g, w2)
    /\ MockSystem.delay_steps g = D
    /\ VectorSynapse.pre_neuron (MockSystem.synapses g)
       = (np_draws 0 (num_neurons_per_type * 15)
            (Z.to_nat (MockSystem.num_synapses s)) (np_seed 0)).1.
Proof.
  intros Hrange Hs Hnpt Hfit Hsyn HD HD1 HS Hk.
  unfold MockSystem.init in Hs.
  destruct (Py.int _) as [nsyn|]; [|discriminate].
  injection Hs as <- <-. cbn [MockSystem.num_synapses] in Hsyn |- *.
  set (N := num_neurons_per_type * 15) in *.
  unfold MockSystem.init_gpu.
  cbn [MockSystem.num_neurons MockSystem.num_synapses MockSystem.num_types
       MockSystem.dt MockSystem.num_in_non MockSystem.start_idx np_rng
       py_rng dev_uninit].
  unfold random_integers.
  replace (N <? 0) with false by (symmetry; apply Z.ltb_ge; lia).
  replace (nsyn <? 0) with false by (symmetry; apply Z.ltb_ge; lia).
  cbn [orb].
  pose proof (np_draws_range 0 N (Z.to_nat nsyn) Hrange ltac:(lia) (np_seed 0))
    as Hpre.
  destruct (np_draws 0 N (Z.to_nat nsyn) (np_seed 0)) as [pre_raw rng1].
  cbn [fst snd mbind option_bind] in *.
  pose proof (np_draws_range 0 N (Z.to_nat nsyn) Hrange ltac:(lia) rng1)
    as Hpost.
  destruct (np_draws 0 N (Z.to_nat nsyn) rng1) as [post_raw rng2].
  cbn [fst snd mbind option_bind] in *.
  assert (Hw : forall l, Forall (fun x => 0 <= x <= N) l -> Py.wrap32 <$> l = l).
  { induction 1 as [|x l Hx _ IH]; [reflexivity|].
    rewrite fmap_cons, IH, wrap32_small by lia. reflexivity. }
  rewrite (Hw pre_raw Hpre), (Hw post_raw Hpost).
  destruct (bincount_is_Some (merge_sort Z.le post_raw)) as [nd ->].
  { rewrite merge_sort_Permutation.
    eapply Forall_impl; [exact Hpost|]. simpl. intros x Hx. lia. }
  cbn [mbind option_bind].
  repeat match goal with
         | |- context [gauss_list ?mu ?sg ?k ?st] =>
             destruct (gauss_list mu sg k st) as [? ?]
         end.
  destruct (Z.to_nat nsyn) as [|nsyn'] eqn:En; [lia|].
  rewrite Py_max_replicate_one. cbn [mbind option_bind].
  change (Py.one * 1e-3)%float with (1e-3)%float. rewrite HD.
  cbn [mbind option_bind]. unfold CircularArray.init, parray_empty.
  replace (0 <? D) with true by (symmetry; apply Z.ltb_lt; lia).
  cbn [mbind option_bind]. unfold Py.floordiv.
  change (15 =? 0) with false. cbn [mbind option_bind].
  replace (N =? 0) with false by (symmetry; apply Z.eqb_neq; lia).
  cbn [mbind option_bind]. unfold MorrisLecar.init. rewrite HS.
  cbn [mbind option_bind].
  match goal with
  | |- context [Py.index ?a ?k] =>
      destruct (Py_index_is_Some a k) as [ni ->]; [cbn [length]; lia|]
  end.
  cbn [mbind option_bind]. eexists _, _. repeat split.
Qed.

(** C5 on the code: the indices are drawn from the closed range
    [[0, num_neurons]] and nothing checks them.  In the network of
    [Demo.small] the first presynaptic index is [num_neurons = 15] and so
    is a postsynaptic one (the 16th dendrite count of a network of 15
    neurons is 1): both lie outside [[0, num_neurons)], and construction
    produces the simulation object all the same. *)
Theorem out_of_range_index_accepted :
  exists g w,
    Demo.small 0 = Some (g, w)
    /\ MockSystem.num_neurons (MockSystem.self g) = 15
    /\ VectorSynapse.pre_neuron (MockSystem.synapses g) !! O = Some 15
    /\ MockSystem.num_dendrites g !! 15%nat = Some 1
    /\ ~ (0 <= 15 < MockSystem.num_neurons (MockSystem.self g)).
Proof.
  eexists _, _. split; [vm_compute; reflexivity|].
  repeat split. simpl. lia.
Qed.

(** ** Two processes *)

(** C2 on the code: two processes build the network from the same
    arguments and run it on the same external currents; their [random]
    modules are in different states (the deviates are 0 in the one, 1 in the
    other), as nothing seeds them.  The index arrays, drawn from the seeded
    numpy generator, agree; the initial voltages and the voltages of the
    first ticks do not. *)
Theorem unseeded_gauss_breaks_determinism :
  exists g1 w1 g2 w2,
    Demo.small 0 = Some (g1, w1)
    /\ Demo.small 1 = Some (g2, w2)
    /\ VectorSynapse.pre_neuron (MockSystem.synapses g1)
       = VectorSynapse.pre_neuron (MockSystem.synapses g2)
    /\ MockSystem.num_dendrites g1 = MockSystem.num_dendrites g2
    /\ MorrisLecar.V (MockSystem.neurons g1)
       <> MorrisLecar.V (MockSystem.neurons g2)
    /\ (MockSystem.run Demo.kernels g1 [[]; []]
          [replicate 15 0%float; replicate 15 0%float]).2
       <> (MockSystem.run Demo.kernels g2 [[]; []]
             [replicate 15 0%float; replicate 15 0%float]).2.
Proof.
  eexists _, _, _, _.
  split; [vm_compute; reflexivity|].
  split; [vm_compute; reflexivity|].
  split; [reflexivity|]. split; [reflexivity|]. split.
  - intros H. apply (f_equal Demo.volts) in H. vm_compute in H. discriminate.
  - intros H. apply (f_equal (fmap Demo.volts)) in H. vm_compute in H.
    discriminate.
Qed.

(** * Further properties of the code *)

(** ** Runs, tick by tick *)

Lemma run_app (K : Kernels) (I1 : list (list double)) :
  forall (s : MockSystem.gpu) (o1 I2 o2 : list (list double)),
    length I1 = length o1 ->
    MockSystem.run K s (I1 ++ I2) (o1 ++ o2)
    = (let r1 := MockSystem.run K s I1 o1 in
       let r2 := MockSystem.run K r1.1 I2 o2 in
       (r2.1, r1.2 ++ r2.2)).
Proof.
  induction I1 as [|i I1 IH]; intros s [|p o1] I2 o2 Hlen; try discriminate.
  - simpl. now destruct (MockSystem.run K s I2 o2).
  - cbn [app MockSystem.run].
    destruct (MockSystem.run_step K s i p) as [[s1 v] log].
    rewrite (IH s1 o1 I2 o2) by (simpl in Hlen; congruence).
    destruct (MockSystem.run K s1 I1 o1) as [s2 vs]. cbn [fst snd].
    now destruct (MockSystem.run K s2 I2 o2).
Qed.

Lemma after_0 (K : Kernels) (s : MockSystem.gpu) (I_ext out : list (list double)) :
  after K s I_ext out 0 = s.
Proof. reflexivity. Qed.

Lemma after_S (K : Kernels) (s : MockSystem.gpu)
    (I_ext out : list (list double)) (k : nat) (i p : list double) :
  I_ext !! k = Some i -> out !! k = Some p ->
  after K s I_ext out (S k)
  = (MockSystem.run_step K (after K s I_ext out k) i p).1.1.
Proof.
  intros Hi Hp. unfold after.
  rewrite (take_S_r _ _ _ Hi), (take_S_r _ _ _ Hp).
  rewrite run_app.
  - cbn [fst snd MockSystem.run].
    destruct (MockSystem.run_step K _ i p) as [[s1 v] log]. reflexivity.
  - rewrite !length_take.
    apply lookup_lt_Some in Hi. apply lookup_lt_Some in Hp. lia.
Qed.

(** What one tick does to the buffer. *)
Lemma run_step_buffer (K : Kernels) (s : MockSystem.gpu)
    (in_non proj : list double) :
  let b := MockSystem.buffer s in
  let s' := (MockSystem.run_step K s in_non proj).1.1 in
  let b' := MockSystem.buffer s' in
  let c := CircularArray.current b in
  CircularArray.current b'
  = (if CircularArray.delay_steps b <=? c + 1 then 0 else c + 1)
  /\ length (CircularArray.buffer b') = length (CircularArray.buffer b)
  /\ (forall r, r <> Z.to_nat c ->
        CircularArray.buffer b' !! r = CircularArray.buffer b !! r)
  /\ (euler_records_voltage K ->
      0 <= c < Z.of_nat (length (CircularArray.buffer b)) ->
      CircularArray.buffer b' !! Z.to_nat c
      = Some (MorrisLecar.V (MockSystem.neurons s'))).
Proof.
  intros b s' b' c. subst b s' b' c.
  pose proof (fun Hrec : euler_records_voltage K =>
                Hrec (MorrisLecar.update (MockSystem.neurons s))
                  (MorrisLecar.V (MockSystem.neurons s))
                  (MorrisLecar.n (MockSystem.neurons s))) as Hrec'.
  open_tick; repeat split.
  - apply length_insert.
  - intros r Hr. apply list_lookup_insert_ne. congruence.
  - intros Hrec Hc.
    match type of Eeuler with
    | hhn_euler_multiple _ _ _ _ ?row ?N ?I ?h ?S = _ =>
        specialize (Hrec' Hrec row N I h S); rewrite Eeuler in Hrec'
    end.
    cbn [fst snd] in Hrec'. subst.
    apply list_lookup_insert_eq. lia.
  - intros Hrec Hc. exfalso.
    destruct (Z.leb_spec 0 (CircularArray.current (MockSystem.buffer s)));
      [|lia].
    apply lookup_ge_None in Ecur. lia.
Qed.

Lemma after_static (K : Kernels) (s : MockSystem.gpu)
    (I_ext out : list (list double)) (k : nat) :
  static (after K s I_ext out k) = static s.
Proof.
  unfold after. generalize (take k out). generalize (take k I_ext).
  clear. intros I_ext. revert s.
  induction I_ext as [|i I_ext IH]; intros s out; [reflexivity|].
  destruct out as [|p out]; [reflexivity|].
  cbn [MockSystem.run].
  assert (Hstep : static (MockSystem.run_step K s i p).1.1 = static s).
  { unfold static. open_tick; rewrite ?length_insert; reflexivity. }
  destruct (MockSystem.run_step K s i p) as [[s1 v] log].
  specialize (IH s1 out).
  destruct (MockSystem.run K s1 I_ext out) as [s2 vs].
  cbn [fst snd] in *. congruence.
Qed.

Lemma static_buffer (a b : MockSystem.gpu) :
  static a = static b ->
  CircularArray.delay_steps (MockSystem.buffer a)
  = CircularArray.delay_steps (MockSystem.buffer b)
  /\ length (CircularArray.buffer (MockSystem.buffer a))
     = length (CircularArray.buffer (MockSystem.buffer b)).
Proof. unfold static. intros H. injection H as H. intros. split; congruence. Qed.

Lemma next_cursor (D c : Z) :
  0 <= c < D -> (if D <=? c + 1 then 0 else c + 1) = (c + 1) mod D.
Proof.
  intros Hc. destruct (Z.leb_spec D (c + 1)).
  - replace (c + 1) with D by lia. now rewrite Z.mod_same by lia.
  - now rewrite Z.mod_small by lia.
Qed.

(** The cursor after [k] ticks, and the invariant it keeps. *)
Lemma after_cursor (K : Kernels) (s : MockSystem.gpu)
    (I_ext out : list (list double)) (k : nat) :
  cursor_inside (MockSystem.buffer s) ->
  (k <= length I_ext)%nat -> (k <= length out)%nat ->
  CircularArray.current (MockSystem.buffer (after K s I_ext out k))
  = (CircularArray.current (MockSystem.buffer s) + Z.of_nat k)
      mod CircularArray.delay_steps (MockSystem.buffer s).
Proof.
  intros [Hlen Hc]. induction k as [|k IH]; intros HI Ho.
  - rewrite after_0, Z.add_0_r. now rewrite Z.mod_small.
  - destruct (lookup_lt_is_Some_2 I_ext k) as [i Hi]; [lia|].
    destruct (lookup_lt_is_Some_2 out k) as [p Hp]; [lia|].
    rewrite (after_S K s I_ext out k i p Hi Hp).
    destruct (run_step_buffer K (after K s I_ext out k) i p) as (Hcur & _).
    rewrite Hcur. clear Hcur.
    destruct (static_buffer _ _ (after_static K s I_ext out k)) as [HD _].
    rewrite HD, IH by lia.
    set (D := CircularArray.delay_steps (MockSystem.buffer s)) in *.
    set (c := CircularArray.current (MockSystem.buffer s)) in *.
    rewrite next_cursor by (apply Z.mod_pos_bound; lia).
    rewrite Z.add_mod_idemp_l by lia. f_equal. lia.
Qed.

(** X1. From a state whose cursor addresses a row, the cursor after [k]
    ticks is [(c + k) mod D]: it walks the [D] rows in order and is back at
    [c] after every [D] ticks; it still addresses a row. *)
Theorem cursor_walks_the_ring (K : Kernels) (s : MockSystem.gpu)
    (I_ext out : list (list double)) (k : nat) :
  cursor_inside (MockSystem.buffer s) ->
  (k <= length I_ext)%nat -> (k <= length out)%nat ->
  let D := CircularArray.delay_steps (MockSystem.buffer s) in
  let c := CircularArray.current (MockSystem.buffer s) in
  let b' := MockSystem.buffer (after K s I_ext out k) in
  CircularArray.current b' = (c + Z.of_nat k) mod D
  /\ cursor_inside b'
  /\ (Z.of_nat k mod D = 0 -> CircularArray.current b' = c).
Proof.
  intros Hin HI Ho D c b'.
  pose proof (after_cursor K s I_ext out k Hin HI Ho) as Hcur.
  fold D c b' in Hcur. destruct Hin as [Hlen Hc]. fold D c in Hlen, Hc.
  destruct (static_buffer _ _ (after_static K s I_ext out k)) as [HD Hrows].
  fold b' D in HD.
  split; [exact Hcur|split].
  - unfold cursor_inside. fold b'. rewrite HD, Hcur. split.
    + unfold b'. rewrite Hrows. exact Hlen.
    + apply Z.mod_pos_bound. lia.
  - intros Hk. rewrite Hcur, Z.add_mod, Hk, Z.add_0_r, Z.mod_mod by lia.
    now apply Z.mod_small.
Qed.

Lemma cursor_walks_the_ring_witness :
  exists g w,
    Demo.small 0 = Some (g, w)
    /\ CircularArray.current
         (MockSystem.buffer
            (after Demo.kernels g (replicate 12 []) (replicate 12 []) 12))
       = (0 + 12) mod 10.
Proof.
  eexists _, _. split; [vm_compute; reflexivity|].
  match goal with
  | |- CircularArray.current (MockSystem.buffer (after ?K ?g ?I ?o ?k)) = _ =>
      exact (proj1 (cursor_walks_the_ring K g I o k
                      ltac:(split; [reflexivity | simpl; lia])
                      ltac:(simpl; lia) ltac:(simpl; lia)))
  end.
Defined.

(** The rows that the first [k] ticks do not visit are as they were. *)
Lemma after_rows_unvisited (K : Kernels) (s : MockSystem.gpu)
    (I_ext out : list (list double)) (k : nat) (r : nat) :
  cursor_inside (MockSystem.buffer s) ->
  (k <= length I_ext)%nat -> (k <= length out)%nat ->
  (forall j, (j < k)%nat ->
     Z.to_nat ((CircularArray.current (MockSystem.buffer s) + Z.of_nat j)
                 mod CircularArray.delay_steps (MockSystem.buffer s)) <> r) ->
  CircularArray.buffer (MockSystem.buffer (after K s I_ext out k)) !! r
  = CircularArray.buffer (MockSystem.buffer s) !! r.
Proof.
  intros Hin. induction k as [|k IH]; intros HI Ho Hr; [reflexivity|].
  destruct (lookup_lt_is_Some_2 I_ext k) as [i Hi]; [lia|].
  destruct (lookup_lt_is_Some_2 out k) as [p Hp]; [lia|].
  rewrite (after_S K s I_ext out k i p Hi Hp).
  destruct (run_step_buffer K (after K s I_ext out k) i p)
    as (_ & _ & Hframe & _).
  rewrite Hframe.
  - apply IH; [lia|lia|]. intros j Hj. apply Hr. lia.
  - rewrite (after_cursor K s I_ext out k Hin) by lia.
    intros Heq. apply (Hr k); [lia|]. now symmetry.
Qed.

(** The row written at tick [j + 1] holds the voltages of that tick until
    the cursor comes back to it, [D] ticks later. *)
Lemma after_rows_history (K : Kernels) (s : MockSystem.gpu)
    (I_ext out : list (list double)) (j : nat) :
  euler_records_voltage K ->
  cursor_inside (MockSystem.buffer s) ->
  forall k,
    (j < k)%nat -> (k <= length I_ext)%nat -> (k <= length out)%nat ->
    Z.of_nat k <= Z.of_nat j + CircularArray.delay_steps (MockSystem.buffer s) ->
    CircularArray.buffer (MockSystem.buffer (after K s I_ext out k))
      !! Z.to_nat ((CircularArray.current (MockSystem.buffer s) + Z.of_nat j)
                     mod CircularArray.delay_steps (MockSystem.buffer s))
    = Some (MorrisLecar.V (MockSystem.neurons (after K s I_ext out (S j)))).
Proof.
  intros Hrec Hin.
  set (D := CircularArray.delay_steps (MockSystem.buffer s)).
  set (c := CircularArray.current (MockSystem.buffer s)).
  assert (HD : 0 < D) by (destruct Hin; subst D; lia).
  induction k as [|k IH]; intros Hjk HI Ho Hfresh; [lia|].
  destruct (lookup_lt_is_Some_2 I_ext k) as [i Hi]; [lia|].
  destruct (lookup_lt_is_Some_2 out k) as [p Hp]; [lia|].
  rewrite (after_S K s I_ext out k i p Hi Hp).
  destruct (run_step_buffer K (after K s I_ext out k) i p)
    as (_ & _ & Hframe & Hwrite).
  pose proof (after_cursor K s I_ext out k Hin ltac:(lia) ltac:(lia)) as Hcur.
  fold D c in Hcur.
  destruct (static_buffer _ _ (after_static K s I_ext out k)) as [_ Hrows].
  destruct (decide (j = k)) as [->|Hne].
  - rewrite (after_S K s I_ext out k i p Hi Hp).
    rewrite <- Hcur. apply Hwrite; [exact Hrec|].
    rewrite Hrows, Hcur. destruct Hin as [Hlen _]. fold D in Hlen.
    pose proof (Z.mod_pos_bound (c + Z.of_nat k) D HD). lia.
  - rewrite Hframe.
    + apply IH; lia.
    + rewrite Hcur. intros Heq.
      apply Z2Nat.inj in Heq; try (apply Z.mod_pos_bound; lia).
      assert (Hdiff : (Z.of_nat k - Z.of_nat j) mod D = 0).
      { rewrite Zminus_mod.
        replace (Z.of_nat k mod D) with ((c + Z.of_nat k - c) mod D)
          by (f_equal; lia).
        replace (Z.of_nat j mod D) with ((c + Z.of_nat j - c) mod D)
          by (f_equal; lia).
        rewrite (Zminus_mod (c + Z.of_nat k)), (Zminus_mod (c + Z.of_nat j)).
        rewrite Heq. rewrite Z.sub_diag. reflexivity. }
      rewrite Z.mod_small in Hdiff by lia. lia.
Qed.

Lemma run_step_synapse_cmd (K : Kernels) (s : MockSystem.gpu)
    (in_non proj : list double) :
  (MockSystem.run_step K s in_non proj).2 !! 4%nat
  = Some (TerminalSynapse
            (CircularArray.current (MockSystem.buffer s))
            (CircularArray.buffer
               (MockSystem.buffer (MockSystem.run_step K s in_non proj).1.1))).
Proof. open_tick; reflexivity. Qed.

(** X2. In tick [k + 1] of a run the synapse kernel is handed the buffer
    in which, for every [d] below the depth and not beyond the ticks done,
    the row [d] slots behind the cursor holds the voltages computed [d]
    ticks earlier ([d = 0]: those of this very tick), provided the
    integration kernel records the voltages it computes. *)
Theorem synapse_kernel_sees_history (K : Kernels) (s : MockSystem.gpu)
    (I_ext out : list (list double)) (k d : nat) (i p : list double) :
  euler_records_voltage K ->
  cursor_inside (MockSystem.buffer s) ->
  I_ext !! k = Some i -> out !! k = Some p ->
  (d <= k)%nat ->
  Z.of_nat d < CircularArray.delay_steps (MockSystem.buffer s) ->
  let D := CircularArray.delay_steps (MockSystem.buffer s) in
  let sk := after K s I_ext out k in
  let cur := CircularArray.current (MockSystem.buffer sk) in
  exists rows,
    (MockSystem.run_step K sk i p).2 !! 4%nat = Some (TerminalSynapse cur rows)
    /\ rows !! Z.to_nat ((cur - Z.of_nat d) mod D)
       = Some (MorrisLecar.V
                 (MockSystem.neurons (after K s I_ext out (S k - d)))).
Proof.
  intros Hrec Hin Hi Hp Hd HdD D sk cur.
  eexists. split; [apply run_step_synapse_cmd|].
  subst cur sk. rewrite <- (after_S K s I_ext out k i p Hi Hp).
  pose proof (lookup_lt_Some _ _ _ Hi) as HI.
  pose proof (lookup_lt_Some _ _ _ Hp) as Ho.
  rewrite (after_cursor K s I_ext out k Hin) by lia. fold D.
  assert (HD : 0 < D) by (destruct Hin; subst D; lia).
  rewrite Zminus_mod_idemp_l.
  replace (CircularArray.current (MockSystem.buffer s) + Z.of_nat k
           - Z.of_nat d)
    with (CircularArray.current (MockSystem.buffer s) + Z.of_nat (k - d))
    by lia.
  replace (S k - d)%nat with (S (k - d)) by lia.
  apply after_rows_history; try assumption; lia.
Qed.

Lemma synapse_kernel_sees_history_witness :
  exists g w (rows : list (list double)),
    Demo.small 0 = Some (g, w)
    /\ rows !! Z.to_nat ((2 - 1) mod 10)
       = Some (MorrisLecar.V
                 (MockSystem.neurons
                    (after Demo.kernels g (replicate 3 []) (replicate 3 []) 2))).
Proof.
  eexists _, _. 
  assert (Hg : Demo.small 0 = Some (_, _)) by (vm_compute; reflexivity).
  match type of Hg with
  | _ = Some (?g, _) =>
      destruct (synapse_kernel_sees_history Demo.kernels g
                  (replicate 3 []) (replicate 3 []) 2 1 [] []
                  ltac:(intros c V n row N I h S; reflexivity)
                  ltac:(split; [reflexivity | simpl; lia])
                  eq_refl eq_refl ltac:(lia) ltac:(simpl; lia))
        as (rows & _ & Hrow)
  end.
  exists rows. split; [exact Hg|]. exact Hrow.
Defined.

(** X3. During the first [D] ticks after construction the rows the cursor
    has not reached yet are as construction left them: after [k <= D]
    ticks this holds of the rows [k .. D - 1].  Those of them that begin
    behind the last byte the loop of [CircularArray.__init__] writes, byte
    [ld * (D - 1) + 8 * num_neurons - 1], still hold what the allocation
    held. *)
Theorem unvisited_rows_as_constructed `{R : NumpyRandom}
    (s : MockSystem.t) (w w' : World) (g : MockSystem.gpu) (K : Kernels)
    (I_ext out : list (list double)) (k r : nat) :
  MockSystem.init_gpu s w = Some (g, w') ->
  (k <= length I_ext)%nat -> (k <= length out)%nat ->
  (k <= r)%nat -> Z.of_nat r < MockSystem.delay_steps g ->
  let rows' := CircularArray.buffer (MockSystem.buffer (after K g I_ext out k)) in
  rows' !! r = CircularArray.buffer (MockSystem.buffer g) !! r
  /\ (let ld := dev_ld w (MockSystem.delay_steps g)
                        (MockSystem.num_neurons s) in
      0 <= ld ->
      ld * (MockSystem.delay_steps g - 1) + 8 * MockSystem.num_neurons s
      <= 8 * (Z.of_nat r * ld) ->
      rows' !! r
      = Some (replicate (Z.to_nat (MockSystem.num_neurons s)) (dev_uninit w))).
Proof.
  intros Hg HI Ho Hkr HrD rows'.
  destruct (init_gpu_inv s w w' g Hg)
    as (rng1 & V & D & S0 & k0 & _ & HN & _ & _ & _ & _ & HD & HV & Hbuf & _
        & Hk0 & _).
  pose proof (cursor_inside_every_tick s w w' g K [] [] Hg) as Hin.
  cbn [MockSystem.run fst] in Hin.
  destruct (init_Some _ _ _ _ _ _ Hbuf) as (HD1 & _ & HDb & Hcur & _).
  specialize (Hin ltac:(lia)).
  assert (Hsame : rows' !! r = CircularArray.buffer (MockSystem.buffer g) !! r).
  { subst rows'. apply after_rows_unvisited; try assumption.
    intros j Hj. rewrite Hcur, HDb, Z.mod_small by lia. lia. }
  split; [exact Hsame|].
  rewrite HD in *. intros ld0 Hld Hr. rewrite Hsame, <- (Nat2Z.id r).
  apply (init_row_untouched V (MockSystem.num_neurons s) D
           (dev_ld w D (MockSystem.num_neurons s)) (dev_uninit w)
           (MockSystem.buffer g));
    try assumption; try lia.
Qed.

Lemma unvisited_rows_as_constructed_witness :
  exists s w g w',
    Demo.made 0 = Some (s, w)
    /\ MockSystem.init_gpu s w = Some (g, w')
    /\ CircularArray.buffer
         (MockSystem.buffer
            (after Demo.kernels g (replicate 2 []) (replicate 2 []) 2)) !! 2%nat
       = Some (replicate 15 PrimFloat.nan).
Proof.
  eexists _, _, _, _.
  split; [vm_compute; reflexivity|].
  match goal with
  | |- ?A /\ _ => assert (Hg : A) by (vm_compute; reflexivity)
  end.
  split; [exact Hg|].
  apply (unvisited_rows_as_constructed _ _ _ _ Demo.kernels
           (replicate 2 []) (replicate 2 []) 2 2 Hg);
    simpl; lia.
Defined.

(** X4. No run changes what construction fixed: the sizes, the tick and
    micro-step constants, the type constants, the dendrite tables, the
    number of driven neurons, every synapse parameter and delay, and the
    depth and number of rows of the buffer. *)
Theorem run_keeps_construction (K : Kernels) (s : MockSystem.gpu)
    (I_ext out : list (list double)) :
  static (MockSystem.run K s I_ext out).1 = static s.
Proof.
  pose proof (after_static K s I_ext out
                (Nat.max (length I_ext) (length out))) as H.
  unfold after in H. now rewrite !take_ge in H by lia.
Qed.

(** ** What a run emits *)

Lemma after_cons (K : Kernels) (s : MockSystem.gpu) (i p : list double)
    (I_ext out : list (list double)) (k : nat) :
  after K s (i :: I_ext) (p :: out) (S k)
  = after K (MockSystem.run_step K s i p).1.1 I_ext out k.
Proof.
  unfold after. cbn [take MockSystem.run].
  destruct (MockSystem.run_step K s i p) as [[s1 v] log]. cbn [fst snd].
  now destruct (MockSystem.run K s1 (take k I_ext) (take k out)).
Qed.

(** What the copy to the host array leaves there. *)
Lemma memcpy_to_host (behind : nat -> double) (p V : list double) :
  let v := memcpy behind p V (length p) in
  length v = length p
  /\ (forall i, (i < length p)%nat -> (i < length V)%nat -> v !! i = V !! i)
  /\ (forall i, (length V <= i < length p)%nat ->
        v !! i = Some (behind (i - length V)%nat)).
Proof.
  intros v. subst v. unfold memcpy. rewrite drop_all, app_nil_r.
  assert (Hl : length (V ++ (behind <$> seq 0 (length p - length V)))
               = (length V + (length p - length V))%nat)
    by now rewrite length_app, length_fmap, length_seq.
  repeat split.
  - rewrite length_take. lia.
  - intros i Hp HV. rewrite lookup_take_lt by lia.
    now rewrite lookup_app_l by lia.
  - intros i Hi. rewrite lookup_take_lt by lia.
    rewrite lookup_app_r by lia.
    rewrite list_lookup_fmap, lookup_seq_lt by lia. reflexivity.
Qed.

(** X5. A run emits one vector per tick, as many as there are rows of
    external current and of output.  The vector of tick [j + 1] has the
    length of the host array it is copied to; its cells are the voltages of
    the state after that tick, as far as there are any: neurons beyond the
    length of the host array are not emitted, a host array longer than [V]
    receives what the device memory holds behind [V], and nothing of what
    the host array held is left. *)
Theorem run_emits_voltage_prefixes (K : Kernels) (I_ext : list (list double)) :
  forall (s : MockSystem.gpu) (out : list (list double)),
    length (MockSystem.run K s I_ext out).2
    = Nat.min (length I_ext) (length out)
    /\ forall j p,
         (j < length I_ext)%nat -> out !! j = Some p ->
         let V := MorrisLecar.V
                    (MockSystem.neurons (after K s I_ext out (S j))) in
         exists v,
           (MockSystem.run K s I_ext out).2 !! j = Some v
           /\ length v = length p
           /\ (forall i, (i < length p)%nat -> (i < length V)%nat ->
                 v !! i = V !! i)
           /\ (forall i, (length V <= i < length p)%nat ->
                 v !! i = Some (outside K BehindV (i - length V)%nat)).
Proof.
  induction I_ext as [|i I_ext IH]; intros s out.
  - split; [reflexivity|]. intros j p Hj. simpl in Hj. lia.
  - destruct out as [|p0 out].
    { split; [reflexivity|]. intros j p _ Hp. now rewrite lookup_nil in Hp. }
    cbn [MockSystem.run].
    assert (Hout : (MockSystem.run_step K s i p0).1.2
                   = memcpy (outside K BehindV) p0
                       (MorrisLecar.V
                          (MockSystem.neurons
                             (MockSystem.run_step K s i p0).1.1))
                       (length p0))
      by (open_tick; reflexivity).
    pose proof (fun k => after_cons K s i p0 I_ext out k) as Hafter.
    destruct (MockSystem.run_step K s i p0) as [[s1 v] log].
    cbn [fst snd] in Hout, Hafter.
    destruct (IH s1 out) as [Hlen Hvs].
    destruct (MockSystem.run K s1 I_ext out) as [s2 vs].
    cbn [fst snd length] in *. split; [lia|].
    intros [|j] p Hj Hp.
    + injection Hp as <-. rewrite Hafter, after_0. cbn [lookup list_lookup].
      exists v. split; [reflexivity|]. rewrite Hout.
      apply memcpy_to_host.
    + rewrite Hafter. apply Hvs; [lia|exact Hp].
Qed.

Lemma run_emits_voltage_prefixes_witness :
  exists g w v,
    Demo.small 0 = Some (g, w)
    /\ (MockSystem.run Demo.kernels g [[]; []]
          [replicate 20 0%float; [0]%float]).2 !! O = Some v
    /\ length v = 20%nat
    /\ v !! 17%nat = Some (outside Demo.kernels BehindV 2).
Proof.
  eexists _, _.
  assert (Hg : Demo.small 0 = Some (_, _)) by (vm_compute; reflexivity).
  match type of Hg with
  | _ = Some (?g, _) =>
      destruct (proj2 (run_emits_voltage_prefixes Demo.kernels [[]; []] g
                         [replicate 20 0%float; [0]%float])
                  O (replicate 20 0%float) ltac:(simpl; lia) eq_refl)
        as (v & Hv & Hlen & _ & Hbehind)
  end.
  exists v. split; [exact Hg|]. split; [exact Hv|]. split; [exact Hlen|].
  apply (Hbehind 17%nat). vm_compute. lia.
Defined.

(** ** Launch geometry *)

Lemma ceil_blocks (n b : Z) :
  0 < b -> 1 <= n ->
  1 <= (n - 1) / b + 1
  /\ ((n - 1) / b + 1 - 1) * b < n <= ((n - 1) / b + 1) * b.
Proof.
  intros Hb Hn.
  pose proof (Z.div_mod (n - 1) b ltac:(lia)) as Hdm.
  pose proof (Z.mod_pos_bound (n - 1) b Hb) as Hr.
  pose proof (Z.div_pos (n - 1) b ltac:(lia) Hb) as Hq.
  nia.
Qed.

(** X6. For a network of at least one neuron, the grids of the
    integration kernels and of the aggregation kernel hold the least number
    of blocks whose x-extent (128, 64 and 32 threads) covers every neuron:
    the last block is needed and no neuron is left without a thread. *)
Theorem neuron_grids_cover (num_neurons : Z) :
  1 <= num_neurons ->
  let covers (grid : Z * Z) (threads : Z) :=
    grid.2 = 1 /\ 1 <= grid.1
    /\ (grid.1 - 1) * threads < num_neurons <= grid.1 * threads in
  covers (Launch.update_grid num_neurons) Launch.update_block.1.1
  /\ covers (Launch.update_grid1 num_neurons) Launch.update_block1.1.1
  /\ covers (Launch.grid_get_input num_neurons) Launch.block_get_input.1.1.
Proof.
  intros Hn covers. subst covers. cbn [fst snd Launch.update_grid
    Launch.update_grid1 Launch.grid_get_input Launch.update_block
    Launch.update_block1 Launch.block_get_input].
  pose proof (ceil_blocks num_neurons 128 ltac:(lia) Hn).
  pose proof (ceil_blocks num_neurons 64 ltac:(lia) Hn).
  pose proof (ceil_blocks num_neurons 32 ltac:(lia) Hn).
  repeat split; lia.
Qed.

Lemma neuron_grids_cover_witness :
  (Launch.update_grid 11520).1 = 90
  /\ (90 - 1) * 128 < 11520 <= (Launch.update_grid 11520).1 * 128.
Proof.
  split; [reflexivity|].
  destruct (neuron_grids_cover 11520 ltac:(lia)) as ((_ & _ & H) & _).
  exact H.
Defined.

(** X7. The grid of the synapse kernel is capped at six blocks per
    multiprocessor.  Up to [6 * 256] synapses per multiprocessor it has one
    thread per synapse (the least number of 256-thread blocks that covers
    them); beyond, it has exactly [6 * multiprocessor_count] blocks and
    fewer threads than synapses, so each thread has several synapses to
    serve. *)
Theorem synapse_grid_capped (multiprocessor_count num_synapse : Z) :
  1 <= multiprocessor_count -> 1 <= num_synapse ->
  let grid := Launch.grid_terminal_synapse multiprocessor_count num_synapse in
  grid.2 = 1 /\ 1 <= grid.1 <= 6 * multiprocessor_count
  /\ (num_synapse <= 6 * multiprocessor_count * 256 ->
      (grid.1 - 1) * 256 < num_synapse <= grid.1 * 256)
  /\ (6 * multiprocessor_count * 256 < num_synapse ->
      grid.1 = 6 * multiprocessor_count /\ grid.1 * 256 < num_synapse).
Proof.
  intros Hmp Hn grid. subst grid.
  cbn [fst snd Launch.grid_terminal_synapse].
  pose proof (ceil_blocks num_synapse 256 ltac:(lia) Hn) as (H1 & H2 & H3).
  set (c := (num_synapse - 1) / 256 + 1) in *.
  repeat split; try lia.
Qed.

Lemma synapse_grid_capped_witness :
  (Launch.grid_terminal_synapse 14 69120).1 = 84
  /\ (Launch.grid_terminal_synapse 14 69120).1 * 256 < 69120.
Proof.
  destruct (synapse_grid_capped 14 69120 ltac:(lia) ltac:(lia))
    as (_ & _ & _ & Hcap).
  exact (Hcap ltac:(lia)).
Defined.

(** ** Construction: what makes it fail *)

(** X8. [init_gpu] raises, and leaves no simulation object, when there is
    no synapse ([max] of an empty array), when the number of neurons is
    not positive, when [1e-3 / dt] or [dt / 1e-5] is not a finite number
    ([dt] zero, infinite or NaN: [int] of an infinity or NaN), and when
    [num_in_non / num_neurons] is no index of the type boundary table. *)
Theorem init_gpu_failures `{R : NumpyRandom} (s : MockSystem.t) (w : World) :
  MockSystem.num_synapses s <= 0
  \/ MockSystem.num_neurons s <= 0
  \/ Py.int_round (1e-3 / MockSystem.dt s)%float = None
  \/ Py.int_round (MockSystem.dt s / 1e-5)%float = None
  \/ Py.index (MockSystem.start_idx s)
       (MockSystem.num_in_non s / MockSystem.num_neurons s) = None ->
  MockSystem.init_gpu s w = None.
Proof.
  intros Hbad.
  destruct (MockSystem.init_gpu s w) as [[g w']|] eqn:Hg; [|reflexivity].
  exfalso.
  destruct (init_gpu_inv s w w' g Hg)
    as (rng1 & V & D & S0 & k & _ & HN & Hsyn & _ & _ & HD & _ & _ & _ & HS
        & Hk & Hidx & _).
  change (Py.one * 1e-3)%float with (1e-3)%float in HD.
  unfold Py.floordiv in Hk.
  destruct (MockSystem.num_neurons s =? 0) eqn:E0; [discriminate|].
  apply Z.eqb_neq in E0. injection Hk as <-.
  destruct Hbad as [H|[H|[H|[H|H]]]]; try lia; congruence.
Qed.

Lemma init_gpu_failures_witness :
  exists s w,
    MockSystem.init 1 1 0 0 0 15 0 0 (Demo.world 0) = Some (s, w)
    /\ Py.int_round (1e-3 / MockSystem.dt s)%float = None
    /\ MockSystem.init_gpu s w = None.
Proof.
  eexists _, _. split; [vm_compute; reflexivity|].
  match goal with
  | |- ?A /\ _ => assert (Hdt : A) by (vm_compute; reflexivity)
  end.
  split; [exact Hdt|].
  apply init_gpu_failures. right. right. left. exact Hdt.
Defined.

(** ** Construction: the driven neurons *)

Lemma Py_index_nonneg {A} (a : list A) (k : Z) (v : A) :
  0 <= k -> Py.index a k = Some v ->
  a !! Z.to_nat k = Some v /\ k < Z.of_nat (length a).
Proof.
  intros Hk. unfold Py.index.
  destruct (Z.leb_spec 0 k); [|lia].
  destruct (Z.ltb_spec k (Z.of_nat (length a))); cbn [andb].
  - intros H'. split; [exact H'|lia].
  - destruct (Z.leb_spec (- Z.of_nat (length a)) k);
      destruct (Z.ltb_spec k 0); cbn [andb]; try discriminate. lia.
Qed.

Lemma init_fields `{R : NumpyRandom}
    (num_neurons_per_type : Z) (avr_synapses_per_neuron dt : double)
    (num_in_non num_in_spike num_proj_non num_proj_spike device : Z)
    (w w1 : World) (s : MockSystem.t) :
  MockSystem.init num_neurons_per_type avr_synapses_per_neuron dt num_in_non
    num_in_spike num_proj_non num_proj_spike device w = Some (s, w1) ->
  MockSystem.num_neurons s = num_neurons_per_type * 15
  /\ MockSystem.start_idx s
     = (fun i => Py.wrap32 (num_neurons_per_type * 15 / 15 * i)) <$> seqZ 0 15
  /\ MockSystem.num_types s = 15
  /\ MockSystem.num_in_non s = num_in_non
  /\ MockSystem.num_proj_non s = num_proj_non
  /\ MockSystem.dt s = dt
  /\ Py.int (avr_synapses_per_neuron
              * Py.of_int (num_neurons_per_type * 15))%float
     = Some (MockSystem.num_synapses s)
  /\ np_rng w1 = np_seed 0 /\ py_rng w1 = py_rng w.
Proof.
  unfold MockSystem.init.
  destruct (Py.int _) as [nsyn|]; [|discriminate].
  intros H. injection H as <- <-. repeat split.
Qed.

(** X9. With a non-negative number of input channels, the number of
    driven neurons is a whole number of types,
    [num_neurons_per_type * (num_in_non / num_neurons)]; it exceeds neither
    the number of input channels nor fourteen fifteenths of the neurons:
    the injection reads no cell beyond the caller's row of [num_in_non]
    currents and writes none beyond the accumulator. *)
Theorem driven_neurons_are_whole_types `{R : NumpyRandom}
    (num_neurons_per_type : Z) (avr_synapses_per_neuron dt : double)
    (num_in_non num_in_spike num_proj_non num_proj_spike device : Z)
    (w w1 w2 : World) (s : MockSystem.t) (g : MockSystem.gpu) :
  MockSystem.init num_neurons_per_type avr_synapses_per_neuron dt num_in_non
    num_in_spike num_proj_non num_proj_spike device w = Some (s, w1) ->
  MockSystem.init_gpu s w1 = Some (g, w2) ->
  num_neurons_per_type * 15 < 2 ^ 31 ->
  0 <= num_in_non ->
  let ni := MorrisLecar.num_input (MockSystem.neurons g) in
  ni = num_neurons_per_type * (num_in_non / (num_neurons_per_type * 15))
  /\ 0 <= ni <= num_in_non
  /\ ni <= 14 * num_neurons_per_type
  /\ ni < Z.of_nat (length (MorrisLecar.I_pre (MockSystem.neurons g))).
Proof.
  intros Hs Hg Hfit Hin ni. subst ni.
  destruct (init_gpu_inv s w1 w2 g Hg)
    as (rng1 & V & D & S0 & k & _ & HN & Hsyn & _ & _ & _ & _ & _ & _ & _
        & Hk & Hidx & _ & _ & _ & _ & HI & _).
  destruct (init_fields _ _ _ _ _ _ _ _ _ _ _ Hs)
    as (HN' & Hstart & _ & Hnin & _).
  rewrite HN', Hnin in *. rewrite Hstart in Hidx. clear Hstart.
  set (npt := num_neurons_per_type) in *.
  unfold Py.floordiv in Hk.
  destruct (npt * 15 =? 0) eqn:E0; [discriminate|].
  apply Z.eqb_neq in E0. injection Hk as <-.
  assert (Hnpt : 1 <= npt) by lia.
  set (k := num_in_non / (npt * 15)) in *.
  assert (Hk0 : 0 <= k) by (apply Z.div_pos; lia).
  destruct (Py_index_nonneg _ _ _ Hk0 Hidx) as [Hlook Hk15].
  rewrite length_fmap, length_seqZ in Hk15.
  rewrite list_lookup_fmap, lookup_seqZ_lt in Hlook by lia.
  cbn [fmap option_fmap option_map] in Hlook. injection Hlook as Hni.
  rewrite Z.div_mul, Z2Nat.id, Z.add_0_l in Hni by lia.
  rewrite wrap32_small in Hni by nia.
  pose proof (Z.mul_div_le num_in_non (npt * 15) ltac:(lia)) as Hle.
  fold k in Hle.
  rewrite HI, length_replicate. repeat split; nia.
Qed.

Lemma driven_neurons_are_whole_types_witness :
  exists s w1 g w2,
    MockSystem.init 2 1 1e-4 70 0 30 0 0 (Demo.world 0) = Some (s, w1)
    /\ MockSystem.init_gpu s w1 = Some (g, w2)
    /\ MorrisLecar.num_input (MockSystem.neurons g) = 2 * (70 / (2 * 15)).
Proof.
  eexists _, _, _, _.
  match goal with
  | |- ?A /\ _ => assert (Hs : A) by (vm_compute; reflexivity)
  end.
  split; [exact Hs|].
  match goal with
  | |- ?A /\ _ => assert (Hg : A) by (vm_compute; reflexivity)
  end.
  split; [exact Hg|].
  exact (proj1 (driven_neurons_are_whole_types _ _ _ _ _ _ _ _ _ _ _ _ _
                  Hs Hg ltac:(lia) ltac:(lia))).
Defined.

(** ** Construction: delays and depth *)

Lemma mag_round_bounds (m : positive) (e : Z) :
  0 <= Py.mag_round_even m e
  /\ Py.mag_round_even m e <= Py.mag_round_away m e
     <= Py.mag_round_even m e + 1.
Proof.
  unfold Py.mag_round_even, Py.mag_round_away.
  destruct (Z.leb_spec 0 e) as [He|He].
  - pose proof (Z.pow_nonneg 2 e ltac:(lia)). nia.
  - assert (Hp : 0 < 2 ^ (- e)) by (apply Z.pow_pos_nonneg; lia).
    pose proof (Z.div_pos (Z.pos m) (2 ^ (- e)) ltac:(lia) Hp) as Hq.
    set (q := Z.pos m / 2 ^ (- e)) in *.
    set (r := Z.pos m mod 2 ^ (- e)) in *.
    destruct (Z.compare_spec (2 * r) (2 ^ (- e)));
      destruct (Z.leb_spec (2 ^ (- e)) (2 * r)); try lia.
    destruct (Z.even q); lia.
Qed.

(** X10. In a constructed network all synapses have the same delay in
    ticks, and (for a depth that is not negative and fits an int32) that
    delay is the depth of the buffer or one less: the two roundings of
    [1e-3 / dt] (ties away from zero for the depth, ties to even for the
    delays) differ by one at most. *)
Theorem delays_within_one_of_depth `{R : NumpyRandom}
    (s : MockSystem.t) (w w' : World) (g : MockSystem.gpu) :
  MockSystem.init_gpu s w = Some (g, w') ->
  0 <= MockSystem.delay_steps g < 2 ^ 31 ->
  exists d,
    VectorSynapse.delay (MockSystem.synapses g)
    = replicate (Z.to_nat (MockSystem.num_synapses s)) d
    /\ MockSystem.delay_steps g - 1 <= d <= MockSystem.delay_steps g.
Proof.
  intros Hg HD.
  destruct (init_gpu_inv s w w' g Hg)
    as (rng1 & V & D & S0 & k & _ & _ & _ & _ & _ & HD' & <- & _ & _ & _ & _
        & _ & _ & _ & _ & _ & _ & _ & _ & _ & Hdelay).
  exists (VectorSynapse.tick_delay Py.one (MockSystem.dt s)).
  split; [rewrite Hdelay, fmap_replicate; reflexivity|].
  unfold VectorSynapse.tick_delay, Py.round_astype_int32.
  unfold Py.int_round in HD'.
  destruct (FloatOps.Prim2SF (Py.one * 1e-3 / MockSystem.dt s)%float)
    as [sg|sg| |sg m e]; try discriminate; injection HD' as HD'.
  - lia.
  - pose proof (mag_round_bounds m e) as (H0 & H1 & H2).
    rewrite <- HD' in HD |- *. clear HD'.
    destruct sg; cbn [Py.signed] in *.
    + destruct (Z.leb_spec (- 2 ^ 31) (- Py.mag_round_even m e));
        destruct (Z.ltb_spec (- Py.mag_round_even m e) (2 ^ 31));
        cbn [andb]; lia.
    + destruct (Z.leb_spec (- 2 ^ 31) (Py.mag_round_even m e));
        destruct (Z.ltb_spec (Py.mag_round_even m e) (2 ^ 31));
        cbn [andb]; lia.
Qed.

Lemma delays_within_one_of_depth_witness :
  exists s w g w' d,
    Demo.made 0 = Some (s, w)
    /\ MockSystem.init_gpu s w = Some (g, w')
    /\ VectorSynapse.delay (MockSystem.synapses g) = replicate 15 d
    /\ 10 - 1 <= d <= 10.
Proof.
  eexists _, _, _, _.
  match goal with
  | |- exists d, ?A /\ _ => assert (Hs : A) by (vm_compute; reflexivity)
  end.
  match goal with
  | |- exists d, _ /\ ?A /\ _ => assert (Hg : A) by (vm_compute; reflexivity)
  end.
  destruct (delays_within_one_of_depth _ _ _ _ Hg ltac:(simpl; lia))
    as (d & Hd & Hbound).
  exists d. split; [exact Hs|]. split; [exact Hg|].
  split; [exact Hd | exact Hbound].
Defined.

(** ** Construction: what the two generators are asked for *)

Lemma gauss_list_ext (mu sigma : double) (size : nat) :
  forall a b : rd_state,
    (forall k, a k = b k) ->
    (gauss_list mu sigma size a).1 = (gauss_list mu sigma size b).1.
Proof.
  induction size as [|n IH]; intros a b Hab; [reflexivity|].
  cbn [gauss_list rd_gauss].
  specialize (IH (fun k => a (S k)) (fun k => b (S k)) (fun k => Hab (S k))).
  destruct (gauss_list mu sigma n (fun k => a (S k))).
  destruct (gauss_list mu sigma n (fun k => b (S k))).
  cbn [fst] in *. now rewrite Hab, IH.
Qed.

Lemma gauss_list_rest (mu sigma : double) (size : nat) :
  forall (st : rd_state) (k : nat),
    (gauss_list mu sigma size st).2 k = st (size + k)%nat.
Proof.
  induction size as [|n IH]; intros st k; [reflexivity|].
  cbn [gauss_list rd_gauss].
  specialize (IH (fun j => st (S j)) k).
  destruct (gauss_list mu sigma n (fun j => st (S j))).
  cbn [snd] in *. rewrite IH. f_equal.
Qed.

Lemma gauss_list_step (mu sigma : double) (z : rd_state) (size : nat)
    (st st' : rd_state) (l : list double) (off : nat) :
  gauss_list mu sigma size st = (l, st') ->
  (forall k, st k = z (off + k)%nat) ->
  l = (gauss_list mu sigma size (deviates_from z off)).1
  /\ forall k, st' k = z (off + size + k)%nat.
Proof.
  intros Hl Hst. split.
  - replace l with (gauss_list mu sigma size st).1 by now rewrite Hl.
    apply gauss_list_ext. exact Hst.
  - intros k. replace st' with (gauss_list mu sigma size st).2 by now rewrite Hl.
    rewrite gauss_list_rest, Hst. f_equal. lia.
Qed.

Lemma gauss_list_lookup (mu sigma : double) (size : nat) :
  forall (st : rd_state) (i : nat),
    (i < size)%nat ->
    (gauss_list mu sigma size st).1 !! i = Some (mu + st i * sigma)%float.
Proof.
  induction size as [|n IH]; intros st i Hi; [lia|].
  cbn [gauss_list rd_gauss].
  specialize (IH (fun k => st (S k))).
  destruct (gauss_list mu sigma n (fun k => st (S k))) as [l st1].
  cbn [fst] in *. destruct i as [|i]; [reflexivity|].
  apply (IH i). lia.
Qed.

Section Drawn.
Context `{R : NumpyRandom}.

(** Every array of a constructed network, by the deviates it is made of. *)
Lemma init_gpu_arrays (s : MockSystem.t) (w w' : World) (g : MockSystem.gpu) :
  MockSystem.init_gpu s w = Some (g, w') ->
  let a := Z.to_nat (MockSystem.num_synapses s) in
  let t := Z.to_nat (MockSystem.num_types s) in
  let N := Z.to_nat (MockSystem.num_neurons s) in
  let z := py_rng w in
  let syn := MockSystem.synapses g in
  let nr := MockSystem.neurons g in
  let drawn mu sigma size off :=
    (gauss_list mu sigma size (deviates_from z off)).1 in
  VectorSynapse.threshold syn = drawn (-0.5)%float 0.01%float a O
  /\ VectorSynapse.slope syn = drawn (-0.5)%float 0.1%float a a
  /\ VectorSynapse.saturation syn = drawn 0.1%float 0.01%float a (2 * a)%nat
  /\ VectorSynapse.power syn = replicate a Py.one
  /\ VectorSynapse.V_rev syn = drawn (-0.4)%float 0.1%float a (3 * a)%nat
  /\ ec_V_1 (MorrisLecar.update nr)
     = drawn 0.13%float 0.03%float t (4 * a)%nat
  /\ ec_V_2 (MorrisLecar.update nr)
     = drawn 0.15%float 0.001%float t (4 * a + t)%nat
  /\ ec_V_3 (MorrisLecar.update nr)
     = drawn (-0.25)%float 0.1%float t (4 * a + 2 * t)%nat
  /\ ec_V_4 (MorrisLecar.update nr)
     = drawn 0.15%float 0.05%float t (4 * a + 3 * t)%nat
  /\ ec_Tphi (MorrisLecar.update nr)
     = drawn 0.2%float 0.01%float t (4 * a + 4 * t)%nat
  /\ ec_offset (MorrisLecar.update nr) = MockSystem.offset
  /\ ec_neuron_start (MorrisLecar.update nr) = MockSystem.start_idx s
  /\ MorrisLecar.V nr = drawn (-0.51)%float 0.01%float N (4 * a + 5 * t)%nat
  /\ MorrisLecar.n nr
     = drawn 0.3%float 0.05%float N (4 * a + 5 * t + N)%nat
  /\ VectorSynapse.conductance syn = replicate a Py.zero
  /\ VectorSynapse.mem_tmp syn = replicate a (dev_uninit w)
  /\ (forall k, py_rng w' k = z (4 * a + 5 * t + 2 * N + k)%nat)
  /\ np_rng w'
     = (np_draws 0 (MockSystem.num_neurons s) a
          (np_draws 0 (MockSystem.num_neurons s) a (np_rng w)).2).2
  /\ dev_uninit w' = dev_uninit w.
Proof.
  intros H a t N z syn nr drawn. subst syn nr.
  unfold MockSystem.init_gpu in H.
  destruct (random_integers 0 _ (MockSystem.num_synapses s) (np_rng w))
    as [[pre_raw rng1]|] eqn:Epre; simpl in H; [|discriminate].
  destruct (random_integers 0 _ (MockSystem.num_synapses s) rng1)
    as [[post_raw rng2]|] eqn:Epost; simpl in H; [|discriminate].
  apply random_integers_Some in Epre as (_ & Hsyn & Epre).
  apply random_integers_Some in Epost as (_ & _ & Epost).
  fold a in Epre, Epost, H. fold t N in H.
  destruct (bincount _) as [nd|]; simpl in H; [|discriminate].
  assert (H0 : forall k, py_rng w k = z (0 + k)%nat) by reflexivity.
  repeat match type of H with
         | context [gauss_list ?mu ?sg ?k ?st] =>
             let l := fresh "l" in let st' := fresh "st" in
             let E := fresh "E" in
             destruct (gauss_list mu sg k st) as [l st'] eqn:E
         end.
  destruct (gauss_list_step _ _ z _ _ _ _ _ E H0) as [-> H1]. clear E H0.
  destruct (gauss_list_step _ _ z _ _ _ _ _ E0 H1) as [-> H2]. clear E0 H1.
  destruct (gauss_list_step _ _ z _ _ _ _ _ E1 H2) as [-> H3]. clear E1 H2.
  destruct (gauss_list_step _ _ z _ _ _ _ _ E2 H3) as [-> H4]. clear E2 H3.
  destruct (gauss_list_step _ _ z _ _ _ _ _ E3 H4) as [-> H5]. clear E3 H4.
  destruct (gauss_list_step _ _ z _ _ _ _ _ E4 H5) as [-> H6]. clear E4 H5.
  destruct (gauss_list_step _ _ z _ _ _ _ _ E5 H6) as [-> H7]. clear E5 H6.
  destruct (gauss_list_step _ _ z _ _ _ _ _ E6 H7) as [-> H8]. clear E6 H7.
  destruct (gauss_list_step _ _ z _ _ _ _ _ E7 H8) as [-> H9]. clear E7 H8.
  destruct (gauss_list_step _ _ z _ _ _ _ _ E8 H9) as [-> H10]. clear E8 H9.
  destruct (gauss_list_step _ _ z _ _ _ _ _ E9 H10) as [-> H11]. clear E9 H10.
  destruct (Py.max _) as [md|]; [|discriminate].
  change (Some md ≫= ?f) with (f md) in H. cbv beta in H.
  destruct (Py.int_round _) as [D|]; [|discriminate].
  change (Some D ≫= ?f) with (f D) in H. cbv beta in H.
  destruct (CircularArray.init _ _ _ _ _) as [buf|]; [|discriminate].
  change (Some buf ≫= ?f) with (f buf) in H. cbv beta in H.
  destruct (Py.floordiv _ _) as [k|]; [|discriminate].
  change (Some k ≫= ?f) with (f k) in H. cbv beta in H.
  unfold MorrisLecar.init in H.
  destruct (Py.int_round _) as [S0|]; [|discriminate].
  change (Some S0 ≫= ?f) with (f S0) in H. cbv beta in H.
  destruct (Py.index _ _) as [ni|]; [|discriminate].
  injection H as <- <-.
  cbn [MockSystem.synapses MockSystem.neurons VectorSynapse.init
       VectorSynapse.threshold VectorSynapse.slope VectorSynapse.saturation
       VectorSynapse.power VectorSynapse.V_rev VectorSynapse.conductance
       VectorSynapse.mem_tmp MorrisLecar.update MorrisLecar.V MorrisLecar.n
       MorrisLecar.get_euler_kernel ec_V_1 ec_V_2 ec_V_3 ec_V_4 ec_Tphi
       ec_offset ec_neuron_start py_rng np_rng dev_uninit dev_ld].
  rewrite <- Epre. cbn [snd]. rewrite <- Epost. cbn [snd].
  unfold drawn.
  repeat split; try reflexivity;
    try match goal with
        | |- (gauss_list _ _ _ (deviates_from _ ?x)).1
             = (gauss_list _ _ _ (deviates_from _ ?y)).1 =>
            replace x with y by lia; reflexivity
        end.
  intros j. rewrite H11. f_equal. lia.
Qed.

End Drawn.

(** X11. Construction draws, from the [random] module, exactly
    [4 * num_synapses + 5 * num_types + 2 * num_neurons] deviates, in the
    order threshold, slope, saturation, reversal potential, the five type
    tables, [V], [n]; the initial voltage of neuron [i] is
    [-0.51 + 0.01 * z] and its gating variable [0.3 + 0.05 * z'] for the
    deviates [z], [z'] numbered [4 * num_synapses + 5 * num_types + i] and
    [... + num_neurons + i]; the numpy generator has advanced by the two
    batches of [num_synapses] index draws. *)
Theorem initial_state_from_deviates `{R : NumpyRandom}
    (s : MockSystem.t) (w w' : World) (g : MockSystem.gpu) :
  MockSystem.init_gpu s w = Some (g, w') ->
  let a := Z.to_nat (MockSystem.num_synapses s) in
  let t := Z.to_nat (MockSystem.num_types s) in
  let N := Z.to_nat (MockSystem.num_neurons s) in
  (forall i, (i < N)%nat ->
     MorrisLecar.V (MockSystem.neurons g) !! i
     = Some (-0.51 + py_rng w (4 * a + 5 * t + i)%nat * 0.01)%float
     /\ MorrisLecar.n (MockSystem.neurons g) !! i
        = Some (0.3 + py_rng w (4 * a + 5 * t + N + i)%nat * 0.05)%float)
  /\ (forall k, py_rng w' k = py_rng w (4 * a + 5 * t + 2 * N + k)%nat)
  /\ np_rng w'
     = (np_draws 0 (MockSystem.num_neurons s) a
          (np_draws 0 (MockSystem.num_neurons s) a (np_rng w)).2).2.
Proof.
  intros Hg a t N.
  destruct (init_gpu_arrays s w w' g Hg)
    as (_ & _ & _ & _ & _ & _ & _ & _ & _ & _ & _ & _ & HV & Hn & _ & _
        & Hpy & Hnp & _).
  fold a t N in HV, Hn, Hpy, Hnp.
  split; [|split; [exact Hpy | exact Hnp]].
  intros i Hi. rewrite HV, Hn, !gauss_list_lookup by exact Hi.
  unfold deviates_from. split; reflexivity.
Qed.

Lemma initial_state_from_deviates_witness :
  exists s w g w',
    Demo.made 1 = Some (s, w)
    /\ MockSystem.init_gpu s w = Some (g, w')
    /\ MorrisLecar.V (MockSystem.neurons g) !! 3%nat
       = Some (-0.51 + py_rng w (4 * 15 + 5 * 15 + 3)%nat * 0.01)%float.
Proof.
  eexists _, _, _, _.
  split; [vm_compute; reflexivity|].
  match goal with
  | |- ?A /\ _ => assert (Hg : A) by (vm_compute; reflexivity)
  end.
  split; [exact Hg|].
  exact (proj1 (proj1 (initial_state_from_deviates _ _ _ _ Hg) 3%nat
                  ltac:(simpl; lia))).
Defined.

(** ** Construction: the shapes of the arrays *)

(** X12. In a constructed network every per-neuron array ([V], [n], the
    accumulator, each row of the buffer) has [num_neurons] cells, every
    per-synapse array [num_synapses] cells, every type table [num_types]
    cells, and the buffer has as many rows as its depth says; the cursor is
    at row 0, the conductances are all zero and the exponents all one.
    Presynaptic indices lie in the closed range [[0, num_neurons]]. *)
Theorem construction_shapes `{R : NumpyRandom}
    (s : MockSystem.t) (w w' : World) (g : MockSystem.gpu) :
  MockSystem.init_gpu s w = Some (g, w') ->
  let a := Z.to_nat (MockSystem.num_synapses s) in
  let t := Z.to_nat (MockSystem.num_types s) in
  let N := Z.to_nat (MockSystem.num_neurons s) in
  let nr := MockSystem.neurons g in
  let syn := MockSystem.synapses g in
  let buf := MockSystem.buffer g in
  (length (MorrisLecar.V nr) = N /\ length (MorrisLecar.n nr) = N
   /\ length (MorrisLecar.I_pre nr) = N)
  /\ (length (CircularArray.buffer buf) = Z.to_nat (MockSystem.delay_steps g)
      /\ CircularArray.delay_steps buf = MockSystem.delay_steps g
      /\ CircularArray.current buf = 0
      /\ Forall (fun row => length row = N) (CircularArray.buffer buf))
  /\ (length (VectorSynapse.pre_neuron syn) = a
      /\ length (VectorSynapse.threshold syn) = a
      /\ length (VectorSynapse.slope syn) = a
      /\ length (VectorSynapse.saturation syn) = a
      /\ length (VectorSynapse.V_rev syn) = a
      /\ length (VectorSynapse.delay syn) = a
      /\ VectorSynapse.power syn = replicate a Py.one
      /\ VectorSynapse.conductance syn = replicate a Py.zero)
  /\ (length (ec_V_1 (MorrisLecar.update nr)) = t
      /\ length (ec_V_2 (MorrisLecar.update nr)) = t
      /\ length (ec_V_3 (MorrisLecar.update nr)) = t
      /\ length (ec_V_4 (MorrisLecar.update nr)) = t
      /\ length (ec_Tphi (MorrisLecar.update nr)) = t
      /\ length (ec_offset (MorrisLecar.update nr)) = 15%nat)
  /\ (np_draw_in_range R -> MockSystem.num_neurons s < 2 ^ 31 ->
      Forall (fun p => 0 <= p <= MockSystem.num_neurons s)
             (VectorSynapse.pre_neuron syn)).
Proof.
  intros Hg a t N nr syn buf. subst nr syn buf.
  destruct (init_gpu_arrays s w w' g Hg)
    as (Hth & Hsl & Hsa & Hpw & Hrev & H1 & H2 & H3 & H4 & H5 & Hoff & _
        & HV & Hn & Hg0 & _).
  destruct (init_gpu_inv s w w' g Hg)
    as (rng1 & V & D & S0 & k & _ & HN & Hsyn & _ & _ & _ & HD & HlV & Hbuf
        & _ & _ & _ & _ & _ & _ & HV' & HI & _ & _ & Hpre & Hdelay).
  fold a t N in Hth, Hsl, Hsa, Hpw, Hrev, H1, H2, H3, H4, H5, HV, Hn, Hg0,
    Hpre, Hdelay, HlV, HI.
  destruct (init_shape _ _ _ _ _ _ Hbuf) as [Hrows Hcells].
  destruct (init_Some _ _ _ _ _ _ Hbuf) as (_ & _ & HDb & Hcur & _).
  rewrite Hth, Hsl, Hsa, Hpw, Hrev, H1, H2, H3, H4, H5, Hoff, HV, Hn, Hg0, HI,
    Hpre, Hdelay, Hrows, HDb, Hcur.
  rewrite !gauss_list_length, !length_fmap, !length_replicate, np_draws_length.
  repeat split; try reflexivity.
  - now rewrite HD.
  - symmetry. exact HD.
  - exact Hcells.
  - intros Hrange Hfit.
    pose proof (np_draws_range 0 (MockSystem.num_neurons s) a Hrange HN
                  (np_rng w)) as Hr.
    clear - Hr Hfit.
    induction Hr as [|x l Hx _ IH]; [constructor|].
    rewrite fmap_cons. constructor; [|exact IH].
    rewrite wrap32_small; lia.
Qed.

Lemma construction_shapes_witness :
  exists s w g w',
    Demo.made 0 = Some (s, w)
    /\ MockSystem.init_gpu s w = Some (g, w')
    /\ Forall (fun row => length row = 15%nat)
              (CircularArray.buffer (MockSystem.buffer g)).
Proof.
  eexists _, _, _, _.
  split; [vm_compute; reflexivity|].
  match goal with
  | |- ?A /\ _ => assert (Hg : A) by (vm_compute; reflexivity)
  end.
  split; [exact Hg|].
  destruct (construction_shapes _ _ _ _ Hg) as (_ & (_ & _ & _ & Hrows) & _).
  exact Hrows.
Defined.

(** ** Construction: what the loop of the buffer does fill *)

(** X13. The loop of [CircularArray.__init__] does fill the head of row 0:
    cell [c] of row 0 holds the resting voltage of neuron [c] as long as
    the second copy, which begins [ld] bytes behind the address of the
    buffer, begins behind that cell ([8 * (c + 1) <= ld]).  With a depth of
    one row there is no second copy: the buffer is the resting vector. *)
Theorem loop_fills_head_of_row_0
    (num_neurons D ld0 : Z) (rest : list double) (uninit : double)
    (b : CircularArray.t) :
  CircularArray.init num_neurons D rest ld0 uninit = Some b ->
  Z.of_nat (length rest) = num_neurons ->
  (forall (c : nat) x, rest !! c = Some x ->
     D = 1 \/ 8 * (Z.of_nat c + 1) <= ld0 ->
     exists row, CircularArray.buffer b !! O = Some row /\ row !! c = Some x)
  /\ (D = 1 -> CircularArray.buffer b = [rest]).
Proof.
  intros Hb Hlen.
  apply init_Some in Hb as (HD & _ & _ & _ & Hbuf).
  assert (Hrow0 : CircularArray.buffer b !! O
                  = Some ((fun c => cell (gpudata
                             (CircularArray.fill_rows rest
                                {| gpudata := fun a =>
                                     Binary64.byte uninit
                                       (a mod Binary64.itemsize);
                                   ld := ld0 |} (seqZ 0 D))) c)
                          <$> seqZ 0 num_neurons)).
  { rewrite Hbuf. change O with (Z.to_nat 0). rewrite grid_lookup by lia.
    rewrite fill_rows_ld. cbn [ld]. reflexivity. }
  assert (Hcell : forall (c : nat) x, rest !! c = Some x ->
            D = 1 \/ 8 * (Z.of_nat c + 1) <= ld0 ->
            cell (gpudata
                    (CircularArray.fill_rows rest
                       {| gpudata := fun a =>
                            Binary64.byte uninit (a mod Binary64.itemsize);
                          ld := ld0 |} (seqZ 0 D))) (Z.of_nat c) = x).
  { intros c x Hx Hfront. unfold cell.
    transitivity (Binary64.of_bytes (Binary64.byte x));
      [|apply of_bytes_byte].
    apply of_bytes_ext. intros k Hk.
    now apply fill_rows_first. }
  split.
  - intros c x Hx Hfront. eexists. split; [exact Hrow0|].
    pose proof (lookup_lt_Some _ _ _ Hx) as Hc.
    rewrite list_lookup_fmap, lookup_seqZ_lt by lia.
    cbn [fmap option_fmap option_map]. rewrite Z.add_0_l. f_equal.
    now apply Hcell.
  - intros ->.
    assert (Hone : length (CircularArray.buffer b) = 1%nat)
      by (rewrite Hbuf; apply grid_length).
    destruct (CircularArray.buffer b) as [|row [|row' rows]];
      try discriminate Hone.
    injection Hrow0 as ->. f_equal. apply list_eq. intros c.
    rewrite list_lookup_fmap.
    destruct (rest !! c) as [x|] eqn:Hx.
    + pose proof (lookup_lt_Some _ _ _ Hx) as Hc.
      rewrite lookup_seqZ_lt by lia.
      cbn [fmap option_fmap option_map]. rewrite Z.add_0_l. f_equal.
      apply Hcell; [exact Hx|now left].
    + apply lookup_ge_None in Hx. now rewrite lookup_seqZ_ge by lia.
Qed.

Lemma loop_fills_head_of_row_0_witness :
  exists b,
    CircularArray.init 3 1 [0.5; 0.25; 0.125]%float 3 PrimFloat.nan = Some b
    /\ CircularArray.buffer b = [[0.5; 0.25; 0.125]%float].
Proof.
  eexists.
  match goal with
  | |- ?A /\ _ => assert (Hb : A) by (vm_compute; reflexivity)
  end.
  split; [exact Hb|].
  exact (proj2 (loop_fills_head_of_row_0 _ _ _ _ _ _ Hb eq_refl) eq_refl).
Defined.

(** ** The synapses of a neuron are one block *)

Lemma below_none (i : Z) (l : list Z) :
  Forall (fun y => i <= y) l -> below i l = O.
Proof.
  induction 1 as [|y l Hy _ IH]; [reflexivity|].
  cbn [below]. rewrite IH. destruct (Z.ltb_spec y i); lia.
Qed.

Lemma below_mono (i i' : Z) (l : list Z) :
  i <= i' -> (below i l <= below i' l)%nat.
Proof.
  intros Hi. induction l as [|y l IH]; [reflexivity|].
  cbn [below]. destruct (Z.ltb_spec y i); destruct (Z.ltb_spec y i'); lia.
Qed.

Lemma below_length (i : Z) (l : list Z) : (below i l <= length l)%nat.
Proof.
  induction l as [|y l IH]; [reflexivity|].
  cbn [below length]. destruct (Z.ltb_spec y i); lia.
Qed.

(** In a sorted list, the entry at position [j] has exactly the smaller
    entries before it. *)
Lemma sorted_rank (l : list Z) :
  StronglySorted Z.le l ->
  forall j x, l !! j = Some x -> (below x l <= j < below (x + 1) l)%nat.
Proof.
  induction 1 as [|a l Hs IH Ha]; intros j x Hj.
  - now rewrite lookup_nil in Hj.
  - cbn [below]. destruct j as [|j].
    + injection Hj as <-. rewrite (below_none a l Ha).
      destruct (Z.ltb_spec a a); destruct (Z.ltb_spec a (a + 1)); lia.
    + cbn [lookup list_lookup] in Hj. specialize (IH j x Hj).
      rewrite Forall_forall in Ha.
      assert (a <= x) by (apply Ha; eapply list_elem_of_lookup_2; exact Hj).
      destruct (Z.ltb_spec a x); destruct (Z.ltb_spec a (x + 1)); lia.
Qed.

Lemma sorted_block (l : list Z) (i : Z) (j : nat) :
  StronglySorted Z.le l ->
  (below i l <= j < below (i + 1) l)%nat <-> l !! j = Some i.
Proof.
  intros Hs. split; [|apply (sorted_rank l Hs)].
  intros Hj.
  destruct (lookup_lt_is_Some_2 l j) as [x Hx].
  { pose proof (below_length (i + 1) l). lia. }
  pose proof (sorted_rank l Hs j x Hx) as Hr.
  destruct (Z.lt_trichotomy x i) as [Hlt|[->|Hgt]]; [|exact Hx|].
  - pose proof (below_mono (x + 1) i l ltac:(lia)). lia.
  - pose proof (below_mono (i + 1) x l ltac:(lia)). lia.
Qed.

Lemma Zsum_counts_below (x : list Z) (n : nat) :
  Forall (fun v => 0 <= v) x ->
  Zsum ((fun k => Z.of_nat (count_occ Z.eq_dec x k)) <$> seqZ 0 (Z.of_nat n))
  = Z.of_nat (below (Z.of_nat n) x).
Proof.
  induction 1 as [|a x Ha Hx IH].
  - apply Zsum_fmap_zero.
  - pose proof (Zsum_indicator a n 0) as Hind.
    cbn [below]. rewrite Nat2Z.inj_add, <- IH.
    replace (Z.of_nat (if a <? Z.of_nat n then 1 else 0))
      with (if (0 <=? a) && (a <? 0 + Z.of_nat n) then 1 else 0)
      by (destruct (Z.leb_spec 0 a); destruct (Z.ltb_spec a (0 + Z.of_nat n));
          destruct (Z.ltb_spec a (Z.of_nat n)); cbn [andb]; lia).
    rewrite <- Hind, <- Zsum_fmap_add. apply Zsum_fmap_ext. intros k.
    cbn [count_occ]. destruct (Z.eq_dec a k); [rewrite Nat2Z.inj_succ|]; lia.
Qed.

Lemma bincount_offsets (x cnt : list Z) (i : nat) :
  bincount x = Some cnt -> Z.of_nat (length x) < 2 ^ 31 ->
  (i <= length cnt)%nat ->
  (0 :: cumsum32 0 cnt) !! i = Some (Z.of_nat (below (Z.of_nat i) x)).
Proof.
  intros Hb Hfit Hi.
  destruct (bincount_counts x cnt Hb) as (Hpos & Hsum & _).
  rewrite cumsum32_prefix by (try assumption; lia). f_equal.
  unfold bincount in Hb. destruct (forallb _ x) eqn:Hall; [|discriminate].
  assert (Hx : Forall (fun v => 0 <= v) x).
  { apply Forall_forall. intros v Hv.
    rewrite forallb_forall in Hall. apply list_elem_of_In in Hv.
    specialize (Hall v Hv). lia. }
  destruct x as [|a x].
  { injection Hb as <-. simpl in Hi. now replace i with O by lia. }
  set (y := a :: x) in *.
  assert (Hc : cnt = (fun k => Z.of_nat (count_occ Z.eq_dec y k))
                       <$> seqZ 0 (foldr Z.max 0 y + 1))
    by (injection Hb as <-; reflexivity).
  clear Hb. subst cnt.
  rewrite length_fmap, length_seqZ in Hi.
  rewrite <- fmap_take.
  replace (take i (seqZ 0 (foldr Z.max 0 y + 1))) with (seqZ 0 (Z.of_nat i)).
  - now apply Zsum_counts_below.
  - apply list_eq. intros j.
    destruct (decide (j < i)%nat) as [Hlt|Hge].
    + rewrite lookup_take_lt, !lookup_seqZ_lt by lia. reflexivity.
    + rewrite lookup_take_ge, lookup_seqZ_ge by lia. reflexivity.
Qed.

(** X14. The offset table cuts the sorted postsynaptic index array into
    the blocks of the neurons: between two successive entries of the table,
    those of neuron [i] and [i + 1], lie the synapses whose target is [i],
    all of them and no other. *)
Theorem synapses_of_a_neuron_are_one_block `{R : NumpyRandom}
    (s : MockSystem.t) (w w' : World) (g : MockSystem.gpu)
    (i j : nat) (a b : Z) :
  MockSystem.init_gpu s w = Some (g, w') ->
  MockSystem.num_synapses s < 2 ^ 31 ->
  MorrisLecar.cum_num_dendrite (MockSystem.neurons g) !! i = Some a ->
  MorrisLecar.cum_num_dendrite (MockSystem.neurons g) !! S i = Some b ->
  (a <= Z.of_nat j < b <-> sorted_post_neuron s w !! j = Some (Z.of_nat i)).
Proof.
  intros Hg Hfit Ha Hb.
  destruct (init_gpu_inv s w w' g Hg)
    as (rng1 & V & D & S0 & k & _ & HN & Hsyn & Hbin & Hrng & _ & _ & _ & _
        & _ & _ & _ & _ & _ & _ & _ & _ & _ & Hoff & _).
  rewrite Hoff in Ha, Hb. subst rng1.
  fold (sorted_post_neuron s w) in Hbin.
  set (post := sorted_post_neuron s w) in *.
  assert (Hlen : Z.of_nat (length post) = MockSystem.num_synapses s).
  { subst post. unfold sorted_post_neuron.
    rewrite (Permutation_length (merge_sort_Permutation _ _)).
    rewrite length_fmap, np_draws_length. lia. }
  assert (Hs : StronglySorted Z.le post)
    by apply (StronglySorted_merge_sort Z.le).
  pose proof (lookup_lt_Some _ _ _ Hb) as Hi. cbn [length] in Hi.
  destruct (cumsum32_table (MockSystem.num_dendrites g) 0) as (Hl & _).
  { lia. }
  { apply (bincount_counts post _ Hbin). }
  { destruct (bincount_counts post _ Hbin) as (_ & -> & _). lia. }
  cbn [length] in Hl.
  rewrite (bincount_offsets post _ i Hbin) in Ha by lia.
  rewrite (bincount_offsets post _ (S i) Hbin) in Hb by lia.
  injection Ha as <-. injection Hb as <-.
  rewrite <- (sorted_block post (Z.of_nat i) j Hs).
  replace (Z.of_nat (S i)) with (Z.of_nat i + 1) by lia. lia.
Qed.

Lemma synapses_of_a_neuron_are_one_block_witness :
  exists s w g w',
    Demo.made 0 = Some (s, w)
    /\ MockSystem.init_gpu s w = Some (g, w')
    /\ (2 <= Z.of_nat 2 < 3 <-> sorted_post_neuron s w !! 2%nat = Some (Z.of_nat 3)).
Proof.
  eexists _, _, _, _.
  split; [vm_compute; reflexivity|].
  match goal with
  | |- ?A /\ _ => assert (Hg : A) by (vm_compute; reflexivity)
  end.
  split; [exact Hg|].
  exact (synapses_of_a_neuron_are_one_block _ _ _ _ 3 2 2 3 Hg
           ltac:(simpl; lia) eq_refl eq_refl).
Defined.

(** ** Two processes, again *)

(** X15. The connectivity does not depend on the process: whatever the
    states of the two generators before [__init__], two networks built from
    the same arguments have the same sizes, the same presynaptic indices,
    the same dendrite counts and offset table, and the same delays and
    buffer depth.  ([__init__] reseeds the numpy generator, the only one the
    index arrays are drawn from.) *)
Theorem connectivity_is_reproducible `{R : NumpyRandom}
    (num_neurons_per_type : Z) (avr_synapses_per_neuron dt : double)
    (num_in_non num_in_spike num_proj_non num_proj_spike device : Z)
    (wa wa1 wa2 wb wb1 wb2 : World) (sa sb : MockSystem.t)
    (ga gb : MockSystem.gpu) :
  MockSystem.init num_neurons_per_type avr_synapses_per_neuron dt num_in_non
    num_in_spike num_proj_non num_proj_spike device wa = Some (sa, wa1) ->
  MockSystem.init_gpu sa wa1 = Some (ga, wa2) ->
  MockSystem.init num_neurons_per_type avr_synapses_per_neuron dt num_in_non
    num_in_spike num_proj_non num_proj_spike device wb = Some (sb, wb1) ->
  MockSystem.init_gpu sb wb1 = Some (gb, wb2) ->
  sa = sb
  /\ VectorSynapse.pre_neuron (MockSystem.synapses ga)
     = VectorSynapse.pre_neuron (MockSystem.synapses gb)
  /\ MockSystem.num_dendrites ga = MockSystem.num_dendrites gb
  /\ MorrisLecar.cum_num_dendrite (MockSystem.neurons ga)
     = MorrisLecar.cum_num_dendrite (MockSystem.neurons gb)
  /\ VectorSynapse.delay (MockSystem.synapses ga)
     = VectorSynapse.delay (MockSystem.synapses gb)
  /\ MockSystem.delay_steps ga = MockSystem.delay_steps gb
  /\ MorrisLecar.num_input (MockSystem.neurons ga)
     = MorrisLecar.num_input (MockSystem.neurons gb).
Proof.
  intros Hsa Hga Hsb Hgb.
  assert (Hs : sa = sb /\ np_rng wa1 = np_rng wb1).
  { unfold MockSystem.init in Hsa, Hsb.
    destruct (Py.int _) as [nsyn|]; [|discriminate].
    injection Hsa as <- <-. injection Hsb as <- <-. split; reflexivity. }
  destruct Hs as [<- Hrng].
  destruct (init_gpu_inv sa wa1 wa2 ga Hga)
    as (ra & Va & Da & Sa & ka & _ & _ & _ & Hbina & Hra & HDa & <- & _ & _
        & _ & Hka & Hia & _ & _ & _ & _ & _ & _ & Hoffa & Hprea & Hdela).
  destruct (init_gpu_inv sa wb1 wb2 gb Hgb)
    as (rb & Vb & Db & Sb & kb & _ & _ & _ & Hbinb & Hrb & HDb & <- & _ & _
        & _ & Hkb & Hib & _ & _ & _ & _ & _ & _ & Hoffb & Hpreb & Hdelb).
  rewrite Hrng in Hra, Hprea. subst ra rb.
  rewrite Hbina in Hbinb. injection Hbinb as Hnd.
  rewrite Hka in Hkb. injection Hkb as <-.
  rewrite Hia in Hib. injection Hib as Hni.
  rewrite HDa in HDb. injection HDb as HD.
  repeat split; congruence.
Qed.

Lemma connectivity_is_reproducible_witness :
  exists ga wa2 gb wb2,
    Demo.small 0 = Some (ga, wa2) /\ Demo.small 1 = Some (gb, wb2)
    /\ MorrisLecar.cum_num_dendrite (MockSystem.neurons ga)
       = MorrisLecar.cum_num_dendrite (MockSystem.neurons gb).
Proof.
  assert (Hsa : MockSystem.init 1 1 1e-4 0 0 15 0 0 (Demo.world 0)
                = Some (_, _)) by (vm_compute; reflexivity).
  assert (Hsb : MockSystem.init 1 1 1e-4 0 0 15 0 0 (Demo.world 1)
                = Some (_, _)) by (vm_compute; reflexivity).
  match type of Hsa with
  | _ = Some (?s, ?w) =>
      assert (Hga : MockSystem.init_gpu s w = Some (_, _))
        by (vm_compute; reflexivity)
  end.
  match type of Hsb with
  | _ = Some (?s, ?w) =>
      assert (Hgb : MockSystem.init_gpu s w = Some (_, _))
        by (vm_compute; reflexivity)
  end.
  eexists _, _, _, _.
  split; [exact Hga|]. split; [exact Hgb|].
  exact (proj1 (proj2 (proj2 (proj2
           (connectivity_is_reproducible _ _ _ _ _ _ _ _ _ _ _ _ _ _ _ _ _ _
              Hsa Hga Hsb Hgb))))).
Defined.
